(** * boomLogger: a shallow embedding of [BoomLog.hpp]

    The development follows the header top-down: the [LEVELS] enumeration,
    the [Event] record and its text rendering, the [Stream] hierarchy with
    its level filter, and the [Log] singleton with its name-keyed registry
    and dispatch loop.  [TestStream] comes from [UnitTest.cpp]. *)

From Stdlib Require Import ZArith List String Ascii Bool Lia.
From Stdlib Require Import Sorting.Sorted DecimalString.
Import ListNotations.

Local Open Scope string_scope.
Local Open Scope Z_scope.

(* ================================================================== *)
(** ** Strings *)

(** A call with a defaulted parameter: [None] is the argument left out. *)
Definition default_arg {A : Type} (dflt : A) (given : option A) : A :=
  match given with
  | Some a => a
  | None => dflt
  end.

(** [s] ends with [x]. *)
Definition ends_with (x s : string) : Prop := exists front, s = front ++ x.

(** [s] starts with [x]. *)
Definition starts_with (x s : string) : Prop := exists back, s = x ++ back.

(** Mirror image of a string, used to turn suffix questions into prefix
    questions. *)
Fixpoint mirror (s : string) : string :=
  match s with
  | EmptyString => EmptyString
  | String c r => mirror r ++ String c EmptyString
  end.

(* ================================================================== *)
(** ** Levels *)

Module boom.

(** [enum LEVELS]. *)
Inductive LEVELS : Type := DBG | INFO | WARNING | ERR | CRITICAL.

(** The enumerator values, as the integer the bit test sees. *)
Definition level_value (l : LEVELS) : Z :=
  match l with
  | DBG => 1
  | INFO => 2
  | WARNING => 4
  | ERR => 8
  | CRITICAL => 16
  end.

(** Position of the single bit of a level. *)
Definition level_bit (l : LEVELS) : Z :=
  match l with
  | DBG => 0
  | INFO => 1
  | WARNING => 2
  | ERR => 3
  | CRITICAL => 4
  end.

Definition LEVELS_eqb (a b : LEVELS) : bool :=
  level_value a =? level_value b.

Definition ALL_LEVELS : Z := 31.

(* ================================================================== *)
(** ** Calendar time

    [Event::toString] goes through [system_clock::to_time_t],
    [localtime_s] and [std::put_time].  These belong to the platform, so
    they are modelled here: a time point is its [time_t] (whole seconds
    since the epoch), the local zone is a fixed offset east of UTC, and
    the calendar is the proleptic Gregorian one. *)

(** The fields of [struct tm] that the date format reads. *)
Record tm : Type := mk_tm {
  tm_sec : Z;
  tm_min : Z;
  tm_hour : Z;
  tm_mday : Z;
  tm_mon : Z;    (* months since January *)
  tm_year : Z    (* years since 1900 *)
}.

(** Days since 1970-01-01 to (year, month, day). *)
Definition civil_from_days (z0 : Z) : Z * Z * Z :=
  let z := z0 + 719468 in
  let era := z / 146097 in
  let doe := z - era * 146097 in
  let yoe := (doe - doe / 1460 + doe / 36524 - doe / 146096) / 365 in
  let y := yoe + era * 400 in
  let doy := doe - (365 * yoe + yoe / 4 - yoe / 100) in
  let mp := (5 * doy + 2) / 153 in
  let d := doy - (153 * mp + 2) / 5 + 1 in
  let m := if mp <? 10 then mp + 3 else mp - 9 in
  (if m <=? 2 then y + 1 else y, m, d).

(** (year, month, day) to days since 1970-01-01. *)
Definition days_from_civil (y0 m d : Z) : Z :=
  let y := if m <=? 2 then y0 - 1 else y0 in
  let era := y / 400 in
  let yoe := y - era * 400 in
  let doy := (153 * (if 2 <? m then m - 3 else m + 9) + 2) / 5 + d - 1 in
  let doe := yoe * 365 + yoe / 4 - yoe / 100 + doy in
  era * 146097 + doe - 719468.

Definition tm_of_seconds (s : Z) : tm :=
  let days := s / 86400 in
  let rem := s mod 86400 in
  let '(y, m, d) := civil_from_days days in
  {| tm_sec := rem mod 60;
     tm_min := (rem / 60) mod 60;
     tm_hour := rem / 3600;
     tm_mday := d;
     tm_mon := m - 1;
     tm_year := y - 1900 |}.

Definition seconds_of_tm (t : tm) : Z :=
  days_from_civil (tm_year t + 1900) (tm_mon t + 1) (tm_mday t) * 86400
  + tm_hour t * 3600 + tm_min t * 60 + tm_sec t.

(** One decimal digit. *)
Definition digit (n : Z) : string :=
  String (ascii_of_N (48 + Z.to_N (n mod 10))) EmptyString.

(** A number in two digits, zero-padded. *)
Definition pad2 (n : Z) : string := digit (n / 10) ++ digit n.

(** A number in decimal, as [%Y] prints the year. *)
Definition decimal (n : Z) : string := NilZero.string_of_int (Z.to_int n).

(** The conversions of [strftime] that the logger's format uses. *)
Definition conversion (t : tm) (c : ascii) : string :=
  if Ascii.eqb c "Y" then decimal (tm_year t + 1900)
  else if Ascii.eqb c "m" then pad2 (tm_mon t + 1)
  else if Ascii.eqb c "d" then pad2 (tm_mday t)
  else if Ascii.eqb c "H" then pad2 (tm_hour t)
  else if Ascii.eqb c "M" then pad2 (tm_min t)
  else if Ascii.eqb c "S" then pad2 (tm_sec t)
  else EmptyString.

(** [std::put_time(&t, fmt)]: ordinary characters are copied, [%c] is
    replaced by its conversion. *)
Fixpoint put_time (t : tm) (fmt : string) : string :=
  match fmt with
  | EmptyString => EmptyString
  | String c rest =>
      if Ascii.eqb c "%" then
        match rest with
        | EmptyString => EmptyString
        | String k rest' => conversion t k ++ put_time t rest'
        end
      else String c (put_time t rest)
  end.

Section Platform.

(** Offset of the local time zone, in seconds east of UTC. *)
Variable tz_offset : Z.

(** Whether the build defines [SHOW_DEBUG] (set by [_DEBUG]). *)
Variable SHOW_DEBUG : bool.

Definition localtime_s (converted : Z) : tm :=
  tm_of_seconds (converted + tz_offset).

Definition mktime (t : tm) : Z := seconds_of_tm t - tz_offset.

(* ================================================================== *)
(** ** Event *)

Record Event : Type := mk_Event {
  timestamp : Z;
  level : LEVELS;
  msg : string;
  source : string;
  code : string
}.

(** [Event() : level(LEVELS::INFO) {}]: the strings are empty and the time
    point is the epoch. *)
Definition Event_default : Event :=
  {| timestamp := 0; level := INFO; msg := ""; source := ""; code := "" |}.

(** [Event(level, msg, source = "", code = "", timestamp = now())];
    [now] is the reading of the system clock at the call. *)
Definition Event_new (now : Z) (level : LEVELS) (msg : string)
    (source code : option string) (timestamp : option Z) : Event :=
  {| timestamp := default_arg now timestamp;
     level := level;
     msg := msg;
     source := default_arg "" source;
     code := default_arg "" code |}.

(** [result << x] on a [std::stringstream], seen as its contents. *)
Definition put (result x : string) : string := result ++ x.
Infix "<<" := put (at level 45, left associativity).

Definition dateFormat : string := "%Y/%m/%d/%H:%M:%S - ".

Definition levelSymbol (l : LEVELS) : string :=
  match l with
  | DBG => " # "
  | INFO => "   "
  | WARNING => " ! "
  | ERR => "!! "
  | CRITICAL => "!!!"
  end.

Definition toString (e : Event) : string :=
  let result := "" in
  let output := localtime_s (timestamp e) in
  let result := result << levelSymbol (level e) << put_time output dateFormat in
  let result :=
    if String.eqb (code e) "" then result
    else result << "[" << code e << "] " in
  let result := result << msg e in
  let result :=
    if String.eqb (source e) "" then result
    else result << " (from " << source e << ")" in
  result.

(* ================================================================== *)
(** ** Streams *)

(** A [Stream*]: an address, [nullptr] being 0. *)
Definition ptr : Type := N.
Definition nullptr : ptr := 0%N.

(** The members that each class derived from [Stream] adds. *)
Inductive Derived : Type :=
| TextFileStream (file : string)
| ConsoleStream
| ArchiveStream (events : list Event)
| TestStream (e : Event).

(** An object of a class derived from [Stream]: the base part ([levels])
    and the derived part. *)
Record Stream : Type := mk_Stream {
  levels : Z;
  derived : Derived
}.

(** [Stream() : levels(ALL_LEVELS) {}] followed by the derived
    constructor. *)
Definition TextFileStream_new (fileName : option string) : Stream :=
  {| levels := ALL_LEVELS;
     derived := TextFileStream (default_arg "Log.txt" fileName) |}.

Definition ConsoleStream_new : Stream :=
  {| levels := ALL_LEVELS; derived := ConsoleStream |}.

Definition ArchiveStream_new : Stream :=
  {| levels := ALL_LEVELS; derived := ArchiveStream [] |}.

Definition TestStream_new : Stream :=
  {| levels := ALL_LEVELS; derived := TestStream Event_default |}.

Definition setLevels (new_levels : Z) (s : Stream) : Stream :=
  {| levels := new_levels; derived := derived s |}.

Definition setFilename (filename : string) (s : Stream) : Stream :=
  match derived s with
  | TextFileStream _ =>
      {| levels := levels s; derived := TextFileStream filename |}
  | _ => s
  end.

Definition getEvents (s : Stream) : list Event :=
  match derived s with
  | ArchiveStream events => events
  | _ => []
  end.

(** The file name a [TextFileStream] holds. *)
Definition file_of (s : Stream) : option string :=
  match derived s with
  | TextFileStream file => Some file
  | _ => None
  end.

(* ================================================================== *)
(** ** The registry container

    [std::map<std::string, Stream*>]: entries kept in increasing key
    order, which is also the order a range-for visits them in. *)

Definition registry : Type := list (string * ptr).

(** [m.find(name)], [None] standing for [m.end()]. *)
Fixpoint map_find (name : string) (m : registry) : option ptr :=
  match m with
  | [] => None
  | (k, p) :: rest => if String.eqb name k then Some p else map_find name rest
  end.

(** [m[name] = p]: the entry is created at its place in the order, or its
    mapped value is replaced. *)
Fixpoint map_assign (name : string) (p : ptr) (m : registry) : registry :=
  match m with
  | [] => [(name, p)]
  | (k, q) :: rest =>
      match String.compare name k with
      | Lt => (name, p) :: (k, q) :: rest
      | Eq => (k, p) :: rest
      | Gt => (k, q) :: map_assign name p rest
      end
  end.

(** [m.erase(name)]. *)
Fixpoint map_erase (name : string) (m : registry) : registry :=
  match m with
  | [] => []
  | (k, q) :: rest =>
      if String.eqb name k then map_erase name rest
      else (k, q) :: map_erase name rest
  end.

Definition names (m : registry) : list string := List.map fst m.

(** Strictly increasing keys: the representation invariant of the
    container. *)
Definition key_lt (a b : string * ptr) : Prop :=
  String.compare (fst a) (fst b) = Lt.

Definition ordered (m : registry) : Prop := StronglySorted key_lt m.

(* ================================================================== *)
(** ** The world the logger runs in *)

(** What a path names. *)
Inductive FileNode : Type :=
| Regular (content : string)
| Unwritable.

Definition filesystem : Type := list (string * FileNode).

Fixpoint fs_lookup (path : string) (fs : filesystem) : option FileNode :=
  match fs with
  | [] => None
  | (k, n) :: rest => if String.eqb path k then Some n else fs_lookup path rest
  end.

Fixpoint fs_store (path : string) (n : FileNode) (fs : filesystem)
  : filesystem :=
  match fs with
  | [] => [(path, n)]
  | (k, old) :: rest =>
      if String.eqb path k then (k, n) :: rest
      else (k, old) :: fs_store path n rest
  end.

(** Contents of a file once opened with [app | out]: a missing file is
    created empty, an unwritable path does not open. *)
Definition fs_open_append (path : string) (fs : filesystem) : option string :=
  match fs_lookup path fs with
  | None => Some ""
  | Some (Regular content) => Some content
  | Some Unwritable => None
  end.

(** Observations, recorded in the order they happen. *)
Inductive Obs : Type :=
| Registered (name : string) (p : ptr)
| Constructed (e : Event)
| Offered (p : ptr) (e : Event)
| Handled (p : ptr) (e : Event)
| FileOpened (path : string) (append_mode : bool) (is_open : bool)
| FileWritten (path : string) (text : string)
| FileClosed (path : string)
| ConsoleWritten (text : string).

(** The members of [Log]. *)
Record Log : Type := mk_Log {
  streams : registry
}.

Record World : Type := mk_World {
  heap : list (ptr * Stream);     (* the live stream objects *)
  instance : option Log;          (* [Log::instance], [None] = [nullptr] *)
  showDebug : bool;               (* [Log::showDebug] *)
  files : filesystem;
  console : string;               (* what [std::cout] received *)
  trace : list Obs
}.

(** The state a program starts in. *)
Definition World_start (fs : filesystem) : World :=
  {| heap := []; instance := None; showDebug := false;
     files := fs; console := ""; trace := [] |}.

Definition with_heap (h : list (ptr * Stream)) (w : World) : World :=
  {| heap := h; instance := instance w; showDebug := showDebug w;
     files := files w; console := console w; trace := trace w |}.

Definition with_instance (i : option Log) (w : World) : World :=
  {| heap := heap w; instance := i; showDebug := showDebug w;
     files := files w; console := console w; trace := trace w |}.

Definition with_showDebug (b : bool) (w : World) : World :=
  {| heap := heap w; instance := instance w; showDebug := b;
     files := files w; console := console w; trace := trace w |}.

Definition with_files (fs : filesystem) (w : World) : World :=
  {| heap := heap w; instance := instance w; showDebug := showDebug w;
     files := fs; console := console w; trace := trace w |}.

Definition with_console (c : string) (w : World) : World :=
  {| heap := heap w; instance := instance w; showDebug := showDebug w;
     files := files w; console := c; trace := trace w |}.

Definition observe (o : list Obs) (w : World) : World :=
  {| heap := heap w; instance := instance w; showDebug := showDebug w;
     files := files w; console := console w; trace := trace w ++ o |}.

(** *** The heap *)

Fixpoint heap_lookup (p : ptr) (h : list (ptr * Stream)) : option Stream :=
  match h with
  | [] => None
  | (q, s) :: rest => if N.eqb p q then Some s else heap_lookup p rest
  end.

Fixpoint heap_update (p : ptr) (s : Stream) (h : list (ptr * Stream))
  : list (ptr * Stream) :=
  match h with
  | [] => []
  | (q, old) :: rest =>
      if N.eqb p q then (q, s) :: rest else (q, old) :: heap_update p s rest
  end.

Fixpoint heap_remove (p : ptr) (h : list (ptr * Stream))
  : list (ptr * Stream) :=
  match h with
  | [] => []
  | (q, old) :: rest =>
      if N.eqb p q then heap_remove p rest else (q, old) :: heap_remove p rest
  end.

(** An address above every live one, and never [nullptr]. *)
Definition fresh (h : list (ptr * Stream)) : ptr :=
  N.succ (fold_right (fun qs acc => N.max (fst qs) acc) 0%N h).

(** [new T(...)]. *)
Definition new (s : Stream) (w : World) : ptr * World :=
  let p := fresh (heap w) in
  (p, with_heap (heap w ++ [(p, s)]) w).

(** [delete p], for [p] a pointer to the class of the object itself, as
    in [delete t1] for a [TestStream* t1] (UnitTest.cpp, "Streams
    Management").  Deleting a derived stream through a [Stream*] has no
    counterpart here: [Stream] has no virtual destructor and the program
    is not defined there. *)
Definition delete (p : ptr) (w : World) : World :=
  with_heap (heap_remove p (heap w)) w.

Definition live (w : World) (p : ptr) : Prop :=
  heap_lookup p (heap w) <> None.

(* ================================================================== *)
(** ** Handling an event *)

(** The overriders of [Stream::handle], selected by the dynamic type of
    the object at [p]. *)
Definition handle (p : ptr) (s : Stream) (event : Event) (w : World) : World :=
  match derived s with
  | TextFileStream file =>
      match fs_open_append file (files w) with
      | Some content =>
          let msg := toString event in
          observe [FileClosed file]
            (with_files (fs_store file (Regular (content ++ msg)) (files w))
               (observe [FileOpened file true true; FileWritten file msg] w))
      | None =>
          observe [FileOpened file true false; FileClosed file] w
      end
  | ConsoleStream =>
      let text := toString event in
      observe [ConsoleWritten text] (with_console (console w ++ text) w)
  | ArchiveStream events =>
      with_heap
        (heap_update p
           {| levels := levels s; derived := ArchiveStream (events ++ [event]) |}
           (heap w)) w
  | TestStream _ =>
      with_heap
        (heap_update p
           {| levels := levels s; derived := TestStream event |}
           (heap w)) w
  end.

(** The level test of [Stream::call]. *)
Definition accepts (mask : Z) (l : LEVELS) : bool :=
  Z.land mask (level_value l) =? level_value l.

(** [p->call(event)]; there is no result when [p] is not a live object. *)
Definition call (p : ptr) (event : Event) (w : World) : option World :=
  match heap_lookup p (heap w) with
  | None => None
  | Some s =>
      let w := observe [Offered p event] w in
      if accepts (levels s) (level event)
      then Some (handle p s event (observe [Handled p event] w))
      else Some w
  end.

(* ================================================================== *)
(** ** Log *)

(** [inst->streams], for the [inst] that [getInstance] returned. *)
Definition inst_streams (w : World) : registry :=
  match instance w with
  | Some l => streams l
  | None => []
  end.

(** [inst->streams[name] = stream]. *)
Definition streams_assign (name : string) (stream : ptr) (w : World) : World :=
  observe [Registered name stream]
    (with_instance
       (Some {| streams := map_assign name stream (inst_streams w) |}) w).

(** [Log::getInstance].  The two [instance->addStream] calls run with
    [instance] already set, so their own [getInstance] returns it
    unchanged and what remains of them is the assignment. *)
Definition getInstance (w : World) : World :=
  match instance w with
  | Some _ => w
  | None =>
      let w := with_instance (Some {| streams := [] |}) w in
      let '(file_stream, w) := new (TextFileStream_new (Some "log.txt")) w in
      let w := streams_assign "defaultTextFile" file_stream w in
      let '(console_stream, w) := new ConsoleStream_new w in
      streams_assign "defaultConsole" console_stream w
  end.

Definition getStream (name : string) (w : World) : ptr * World :=
  let result := nullptr in
  let w := getInstance w in
  let found := map_find name (inst_streams w) in
  match found with
  | Some second => (second, w)
  | None => (result, w)
  end.

Definition addStream (name : string) (stream : ptr) (w : World) : World :=
  let w := getInstance w in
  streams_assign name stream w.

Definition removeStream (name : string) (w : World) : ptr * World :=
  let w := getInstance w in
  let '(result, w) := getStream name w in
  if negb (N.eqb result nullptr)
  then (result,
        with_instance
          (Some {| streams := map_erase name (inst_streams w) |}) w)
  else (result, w).

Definition forceDebug (show : bool) (w : World) : World :=
  with_showDebug show w.

(** The range-for over [inst->streams]. *)
Fixpoint notify_all (entries : registry) (e : Event) (w : World)
  : option World :=
  match entries with
  | [] => Some w
  | (_, second) :: rest =>
      match call second e w with
      | Some w' => notify_all rest e w'
      | None => None
      end
  end.

(** The guarded block of [Log::log]. *)
Definition dispatch (now : Z) (level : LEVELS) (msg : string)
    (source code : option string) (w : World) : option World :=
  let w := getInstance w in
  let e := Event_new now level msg source code None in
  let w := observe [Constructed e] w in
  notify_all (inst_streams w) e w.

Definition debugVisible (w : World) : bool :=
  if SHOW_DEBUG then true else showDebug w.

Definition log (now : Z) (level : LEVELS) (msg : string)
    (source code : option string) (w : World) : option World :=
  if negb (LEVELS_eqb level DBG) || debugVisible w
  then dispatch now level msg source code w
  else Some w.

Definition debug now msg source code := log now DBG msg source code.
Definition info now msg source code := log now INFO msg source code.
Definition warning now msg source code := log now WARNING msg source code.
Definition error now msg source code := log now ERR msg source code.
Definition critical now msg source code := log now CRITICAL msg source code.

(* ================================================================== *)
(** ** Reading the observations *)

(** The [call]s made, in order. *)
Fixpoint offered (t : list Obs) : list (ptr * Event) :=
  match t with
  | [] => []
  | Offered p e :: rest => (p, e) :: offered rest
  | _ :: rest => offered rest
  end.

(** The [handle]s run, in order. *)
Fixpoint handled (t : list Obs) : list (ptr * Event) :=
  match t with
  | [] => []
  | Handled p e :: rest => (p, e) :: handled rest
  | _ :: rest => handled rest
  end.

(** The events constructed, in order. *)
Fixpoint constructed (t : list Obs) : list Event :=
  match t with
  | [] => []
  | Constructed e :: rest => e :: constructed rest
  | _ :: rest => constructed rest
  end.

(** The filter mask of the object at [p]. *)
Definition mask_at (w : World) (p : ptr) : Z :=
  match heap_lookup p (heap w) with
  | Some s => levels s
  | None => 0
  end.

(** Every registered pointer is a live object. *)
Definition registry_live (w : World) : Prop :=
  forall name p, In (name, p) (inst_streams w) -> live w p.

(** [name] was registered at some point of the run so far. *)
Definition was_registered (w : World) (name : string) : Prop :=
  exists p, In (Registered name p) (trace w).

(** Every object keeps its filter mask from [w] to [w'], and no object
    appears or disappears. *)
Definition same_masks (w w' : World) : Prop :=
  forall q,
    option_map levels (heap_lookup q (heap w')) =
    option_map levels (heap_lookup q (heap w)).

(** The registry is ordered by name, and every entry in it was put there
    by a registration. *)
Definition run_invariant (w : World) : Prop :=
  ordered (inst_streams w) /\
  forall n p, In (n, p) (inst_streams w) -> In (Registered n p) (trace w).

(* ================================================================== *)
(** ** Runs of a client program *)

(** The states a program reaches by using the library: creating,
    configuring and deleting streams, and calling the static members of
    [Log]. *)
Inductive reachable : World -> Prop :=
| reach_start fs :
    reachable (World_start fs)
| reach_new s w :
    reachable w -> reachable (snd (new s w))
| reach_delete p w :
    reachable w -> reachable (delete p w)
| reach_setLevels p mask s w :
    reachable w -> heap_lookup p (heap w) = Some s ->
    reachable (with_heap (heap_update p (setLevels mask s) (heap w)) w)
| reach_setFilename p filename s w :
    reachable w -> heap_lookup p (heap w) = Some s ->
    reachable (with_heap (heap_update p (setFilename filename s) (heap w)) w)
| reach_getStream name w :
    reachable w -> reachable (snd (getStream name w))
| reach_addStream name stream w :
    reachable w -> reachable (addStream name stream w)
| reach_removeStream name w :
    reachable w -> reachable (snd (removeStream name w))
| reach_forceDebug show w :
    reachable w -> reachable (forceDebug show w)
| reach_log now lvl m src cd w w' :
    reachable w -> log now lvl m src cd w = Some w' -> reachable w'.

(* ================================================================== *)
(** ** More of the client's view *)

(** A mask written as [LEVELS::A | LEVELS::B | ...]. *)
Definition mask_of (ls : list LEVELS) : Z :=
  fold_right (fun l acc => Z.lor (level_value l) acc) 0 ls.

(** The member [e] of a [TestStream] (UnitTest.cpp), and its readers
    [getMsg], [getTime] and [getEventString]. *)
Definition held (s : Stream) : option Event :=
  match derived s with
  | TestStream e => Some e
  | _ => None
  end.

Definition getMsg (s : Stream) : option string := option_map msg (held s).

Definition getTime (s : Stream) : option string :=
  option_map (fun e => put_time (localtime_s (timestamp e)) dateFormat)
    (held s).

Definition getEventString (s : Stream) : option string :=
  option_map toString (held s).

(** What running its handler does to the handling object itself. *)
Definition absorb (event : Event) (s : Stream) : Stream :=
  match derived s with
  | ArchiveStream events =>
      {| levels := levels s; derived := ArchiveStream (events ++ [event]) |}
  | TestStream _ => {| levels := levels s; derived := TestStream event |}
  | _ => s
  end.

(** How many entries of the registry name the object at [p]. *)
Definition entries_naming (p : ptr) (m : registry) : nat :=
  List.length (filter (fun np => N.eqb (snd np) p) m).

(** [p->handle(e)] for each event of a list in turn. *)
Fixpoint handle_each (p : ptr) (events : list Event) (w : World) : World :=
  match events with
  | [] => w
  | e :: rest =>
      match heap_lookup p (heap w) with
      | Some s => handle_each p rest (handle p s e w)
      | None => w
      end
  end.

(** No object lives at [nullptr]. *)
Definition null_free (w : World) : Prop :=
  heap_lookup nullptr (heap w) = None.

(** What the dispatch block of a log call does from [w] to [w'], [added]
    being what it observes after the construction of the event: every
    entry of the registry is offered the event in turn; and when the turn
    of an entry comes, the world goes through the [handle] of the object
    it names if the mask of that object has the level, and is left as it
    is otherwise, before the loop goes on to [w']. *)
Definition delivery (now : Z) (l : LEVELS) (m : string)
    (src cd : option string) (w w' : World) (added : list Obs) : Prop :=
  let e := Event_new now l m src cd None in
  let w0 := getInstance w in
  trace w' = (trace w0 ++ Constructed e :: added)%list /\
  offered added = List.map (fun np => (snd np, e)) (inst_streams w0) /\
  handled added =
    List.map (fun np => (snd np, e))
      (filter (fun np => accepts (mask_at w0 (snd np)) l) (inst_streams w0)) /\
  forall before name p after,
    inst_streams w0 = (before ++ (name, p) :: after)%list ->
    exists w1 s,
      notify_all before e (observe [Constructed e] w0) = Some w1 /\
      heap_lookup p (heap w1) = Some s /\
      levels s = mask_at w0 p /\
      notify_all after e
        (if accepts (mask_at w0 p) l
         then handle p s e (observe [Handled p e] (observe [Offered p e] w1))
         else observe [Offered p e] w1) = Some w'.

End Platform.

(* ================================================================== *)
(** ** Scenarios of [UnitTest.cpp] *)

(** SECTION "Logger Levels": two test streams, one listening to
    DBG | INFO | ERR, the other to WARNING | CRITICAL | ERR, registered
    as "dbg_info" and "warn_crit". *)
Definition levels_scenario : World :=
  let '(t_dbg_info, w) :=
    new (setLevels (Z.lor (level_value DBG)
                      (Z.lor (level_value INFO) (level_value ERR)))
           TestStream_new) (World_start []) in
  let '(t_warn_crit, w) :=
    new (setLevels (Z.lor (level_value WARNING)
                      (Z.lor (level_value CRITICAL) (level_value ERR)))
           TestStream_new) w in
  addStream "warn_crit" t_warn_crit (addStream "dbg_info" t_dbg_info w).

(** SECTION "Streams Management": one test stream, not yet registered. *)
Definition management_scenario : ptr * World :=
  new TestStream_new (World_start []).

(** The same, once the stream is registered as "Target". *)
Definition target_scenario : World :=
  addStream "Target" (fst management_scenario) (snd management_scenario).

(** A world whose "log.txt" cannot be opened for writing. *)
Definition locked_log_scenario : World :=
  World_start [("log.txt", Unwritable)].


(** An archive listening to WARNING | ERR, registered as "archive". *)
Definition archive_scenario : World :=
  let '(a, w) :=
    new (setLevels (Z.lor (level_value WARNING) (level_value ERR))
           ArchiveStream_new) (World_start []) in
  addStream "archive" a w.

End boom.

Import boom.

(* ================================================================== *)
(** * Properties *)

(** ** Strings *)

Lemma append_nil_r (s : string) : s ++ "" = s.
Proof. induction s; simpl; congruence. Qed.

Lemma append_assoc (a b c : string) : (a ++ b) ++ c = a ++ (b ++ c).
Proof. induction a; simpl; congruence. Qed.

Lemma append_cancel_l (a x y : string) : a ++ x = a ++ y -> x = y.
Proof. induction a; simpl; intros H; [assumption|]. inversion H; auto. Qed.

Lemma append_length (a b : string) :
  String.length (a ++ b) = (String.length a + String.length b)%nat.
Proof. induction a; simpl; congruence. Qed.

(** Two ways of cutting the same string: one cut is inside the other's
    first piece. *)
Lemma append_eq_append (a b x y : string) :
  a ++ x = b ++ y ->
  (exists c, b = a ++ c /\ x = c ++ y) \/
  (exists c, c <> "" /\ a = b ++ c /\ y = c ++ x).
Proof.
  revert b; induction a as [|ch a IH]; intros b H; simpl in H.
  - left. exists b. auto.
  - destruct b as [|ch' b]; simpl in H.
    + right. exists (String ch a). split; [discriminate | split; [reflexivity | now subst y]].
    + inversion H; subst. destruct (IH b H2) as [[c [-> ->]]|[c [Hc [-> ->]]]].
      * left. exists c. auto.
      * right. exists c. auto.
Qed.

(** A string that reappears after a copy of [p] in front of it starts
    over inside [p]: what follows it is a rotation of [p]. *)
Lemma shifted_copy (n : nat) : forall m p t r,
  (String.length m <= n)%nat -> p <> "" ->
  m ++ t = p ++ m ++ r ->
  exists u q, q <> "" /\ p = u ++ q /\ t = q ++ u ++ r.
Proof.
  induction n as [|n IH]; intros m p t r Hlen Hp H.
  - destruct m; [|simpl in Hlen; lia]. simpl in H.
    exists "", p. simpl. auto.
  - destruct (append_eq_append _ _ _ _ H) as [[c [-> ->]]|[c [Hc [-> Hrest]]]].
    + destruct c as [|ch c].
      * rewrite append_nil_r in *. exists "", m. simpl. auto.
      * exists m, (String ch c). split; [discriminate | split; reflexivity].
    + rewrite append_assoc in Hrest.
      apply (IH c p t r); auto.
      rewrite append_length in Hlen.
      destruct p; [congruence|]. simpl in Hlen. lia.
Qed.

Lemma mirror_append (a b : string) : mirror (a ++ b) = mirror b ++ mirror a.
Proof.
  induction a; simpl.
  - now rewrite append_nil_r.
  - rewrite IHa. now rewrite append_assoc.
Qed.

Lemma ends_with_mirror (x s : string) :
  ends_with x s -> starts_with (mirror x) (mirror s).
Proof. intros [front ->]. exists (mirror front). apply mirror_append. Qed.

Lemma eqb_empty (s : string) : String.eqb s "" = false <-> s <> "".
Proof. apply String.eqb_neq. Qed.

(* ------------------------------------------------------------------ *)
(** ** Rendering *)

(** The date format, conversion by conversion. *)
Lemma stamp_shape (t : tm) :
  put_time t dateFormat =
  decimal (tm_year t + 1900) ++ "/" ++ pad2 (tm_mon t + 1) ++ "/" ++
  pad2 (tm_mday t) ++ "/" ++ pad2 (tm_hour t) ++ ":" ++ pad2 (tm_min t) ++
  ":" ++ pad2 (tm_sec t) ++ " - ".
Proof. reflexivity. Qed.

Lemma civil_range (z : Z) :
  let '(y, m, d) := civil_from_days z in 1 <= m <= 12 /\ 1 <= d <= 31.
Proof.
  unfold civil_from_days.
  set (zz := z + 719468). set (era := zz / 146097).
  set (doe := zz - era * 146097).
  assert (Hdoe : 0 <= doe <= 146096)
    by (subst doe era; Z.div_mod_to_equations; lia).
  clearbody doe. clear zz era z.
  set (yoe := (doe - doe / 1460 + doe / 36524 - doe / 146096) / 365).
  assert (Hyoe : 0 <= yoe <= 399) by (subst yoe; Z.div_mod_to_equations; lia).
  set (doy := doe - (365 * yoe + yoe / 4 - yoe / 100)).
  assert (Hdoy : 0 <= doy <= 365)
    by (subst doy yoe; Z.div_mod_to_equations; lia).
  clearbody doy.
  set (mp := (5 * doy + 2) / 153).
  assert (Hmp : 0 <= mp <= 11) by (subst mp; Z.div_mod_to_equations; lia).
  assert (Hd : 1 <= doy - (153 * mp + 2) / 5 + 1 <= 31)
    by (subst mp; Z.div_mod_to_equations; lia).
  destruct (mp <? 10)%Z eqn:E;
    [apply Z.ltb_lt in E | apply Z.ltb_ge in E]; split; lia.
Qed.

(** The broken-down time is a calendar date and a time of day. *)
Lemma tm_of_seconds_range (s : Z) :
  let t := tm_of_seconds s in
  1 <= tm_mon t + 1 <= 12 /\ 1 <= tm_mday t <= 31 /\
  0 <= tm_hour t <= 23 /\ 0 <= tm_min t <= 59 /\ 0 <= tm_sec t <= 59.
Proof.
  unfold tm_of_seconds.
  pose proof (civil_range (s / 86400)) as Hc.
  destruct (civil_from_days (s / 86400)) as [[y m] d]. simpl.
  repeat split; try lia; Z.div_mod_to_equations; lia.
Qed.

Lemma pad2_length (n : Z) : String.length (pad2 n) = 2%nat.
Proof. reflexivity. Qed.

Lemma levelSymbol_length (l : LEVELS) : String.length (levelSymbol l) = 3%nat.
Proof. destruct l; reflexivity. Qed.

(** The writes of [toString], one after the other. *)
Lemma toString_segments (tz : Z) (e : Event) :
  toString tz e =
  levelSymbol (level e) ++ put_time (localtime_s tz (timestamp e)) dateFormat
  ++ (if String.eqb (code e) "" then "" else "[" ++ code e ++ "] ")
  ++ msg e
  ++ (if String.eqb (source e) "" then "" else " (from " ++ source e ++ ")").
Proof.
  unfold toString, put.
  generalize (put_time (localtime_s tz (timestamp e)) dateFormat).
  generalize (levelSymbol (level e)). intros sym stamp.
  destruct (String.eqb (code e) ""), (String.eqb (source e) "");
    repeat rewrite append_assoc; cbn [append];
    repeat rewrite append_nil_r; reflexivity.
Qed.

(** Local time undoes [mktime] in the same zone, here at noon of the
    first day of 2000. *)
Lemma noon_2000 (tz : Z) :
  localtime_s tz (mktime tz (mk_tm 0 0 12 1 0 100)) = mk_tm 0 0 12 1 0 100.
Proof.
  unfold localtime_s, mktime.
  replace (seconds_of_tm (mk_tm 0 0 12 1 0 100) - tz + tz)
    with (seconds_of_tm (mk_tm 0 0 12 1 0 100)) by lia.
  vm_compute. reflexivity.
Qed.

(** C2: a rendered event is the level symbol, the time stamp
    year/month/day/hour:minute:second closed by " - ", then the optional
    code segment, the message and the optional source segment; the symbols
    are the five fixed three-character tags; and the WARNING event "Test
    Message" stamped 2000-01-01 12:00:00 local time, without source or
    code, renders as " ! 2000/01/01/12:00:00 - Test Message". *)
Theorem C2_render_format (tz : Z) (e : Event) :
  let t := localtime_s tz (timestamp e) in
  toString tz e =
    levelSymbol (level e)
    ++ (decimal (tm_year t + 1900) ++ "/" ++ pad2 (tm_mon t + 1) ++ "/" ++
        pad2 (tm_mday t) ++ "/" ++ pad2 (tm_hour t) ++ ":" ++
        pad2 (tm_min t) ++ ":" ++ pad2 (tm_sec t) ++ " - ")
    ++ (if String.eqb (code e) "" then "" else "[" ++ code e ++ "] ")
    ++ msg e
    ++ (if String.eqb (source e) "" then "" else " (from " ++ source e ++ ")")
  /\ (1 <= tm_mon t + 1 <= 12 /\ 1 <= tm_mday t <= 31 /\
      0 <= tm_hour t <= 23 /\ 0 <= tm_min t <= 59 /\ 0 <= tm_sec t <= 59)
  /\ (levelSymbol DBG = " # " /\ levelSymbol INFO = "   " /\
      levelSymbol WARNING = " ! " /\ levelSymbol ERR = "!! " /\
      levelSymbol CRITICAL = "!!!")
  /\ toString tz
       {| timestamp := mktime tz (mk_tm 0 0 12 1 0 100);
          level := WARNING; msg := "Test Message";
          source := ""; code := "" |}
     = " ! 2000/01/01/12:00:00 - Test Message".
Proof.
  intros t. split; [|split; [|split]].
  - rewrite toString_segments. fold t. now rewrite stamp_shape.
  - apply tm_of_seconds_range.
  - repeat split.
  - rewrite toString_segments. cbn [timestamp level msg source code].
    rewrite noon_2000. vm_compute. reflexivity.
Qed.

(** What is left of the rendering once the symbol and the time stamp are
    taken off the front. *)
Lemma after_stamp (tz : Z) (e : Event) :
  exists rest,
    toString tz e =
      (levelSymbol (level e)
       ++ put_time (localtime_s tz (timestamp e)) dateFormat) ++ rest /\
    rest = (if String.eqb (code e) "" then "" else "[" ++ code e ++ "] ")
           ++ msg e
           ++ (if String.eqb (source e) "" then ""
               else " (from " ++ source e ++ ")").
Proof.
  eexists. split; [|reflexivity].
  rewrite toString_segments. now rewrite append_assoc.
Qed.

(** Without a code, the text after the stamp does not open with an empty
    code segment followed by the message. *)
Lemma no_empty_code_segment (m tail : string) :
  tail = "" \/ (exists s, tail = " (from " ++ s ++ ")") ->
  ~ starts_with ("[] " ++ m) (m ++ tail).
Proof.
  intros Htail [back H].
  assert (Hs : m ++ tail = "[] " ++ m ++ back)
    by (rewrite H; now rewrite append_assoc).
  destruct (shifted_copy (String.length m) m "[] " tail back
              (le_n _) ltac:(discriminate) Hs) as [u [q [Hq [Hp Ht]]]].
  destruct u as [|a [|b [|c [|d u]]]]; simpl in Hp; inversion Hp; subst;
    try congruence;
    destruct Htail as [Ht | [s Ht]]; simpl in Ht; discriminate.
Qed.

(** The text in front of the message ends in "- " or in "] ", so the
    message is never followed by an empty source segment. *)
Lemma no_empty_source_segment (front m : string) :
  (exists x, front = x ++ "- ") \/ (exists x, front = x ++ "] ") ->
  ~ ends_with (m ++ " (from )") (front ++ m).
Proof.
  intros Hfront Hend.
  apply ends_with_mirror in Hend. destruct Hend as [back H].
  rewrite !mirror_append in H. simpl (mirror " (from )") in H.
  assert (Hs : mirror m ++ mirror front = ") morf( " ++ mirror m ++ back)
    by (rewrite H; now rewrite append_assoc).
  destruct (shifted_copy (String.length (mirror m)) (mirror m) ") morf( "
              (mirror front) back (le_n _) ltac:(discriminate) Hs)
    as [u [q [Hq [Hp Ht]]]].
  assert (Hm : exists y, mirror front = " -" ++ y \/ mirror front = " ]" ++ y).
  { destruct Hfront as [[x ->]|[x ->]]; rewrite mirror_append;
      exists (mirror x); simpl; auto. }
  destruct Hm as [y Hm].
  destruct u as [|a1 [|a2 [|a3 [|a4 [|a5 [|a6 [|a7 [|a8 [|a9 u]]]]]]]]];
    simpl in Hp; inversion Hp; subst; try congruence;
    destruct Hm as [Hm|Hm]; rewrite Hm in Ht; simpl in Ht; discriminate.
Qed.

(** The time stamp closes with "- ". *)
Lemma stamp_tail (t : tm) : exists x, put_time t dateFormat = x ++ "- ".
Proof.
  rewrite stamp_shape.
  exists (decimal (tm_year t + 1900) ++ "/" ++ pad2 (tm_mon t + 1) ++ "/" ++
          pad2 (tm_mday t) ++ "/" ++ pad2 (tm_hour t) ++ ":" ++
          pad2 (tm_min t) ++ ":" ++ pad2 (tm_sec t) ++ " ").
  repeat rewrite append_assoc. reflexivity.
Qed.

(** Without a source the rendering ends with the message, and what
    precedes the message ends in "- " or in "] ". *)
Lemma before_message (tz : Z) (e : Event) :
  source e = "" ->
  exists front,
    toString tz e = front ++ msg e /\
    ((exists x, front = x ++ "- ") \/ (exists x, front = x ++ "] ")).
Proof.
  intros Hsrc. rewrite toString_segments, Hsrc.
  destruct (stamp_tail (localtime_s tz (timestamp e))) as [x Hx].
  rewrite Hx. generalize (levelSymbol (level e)). intros sym.
  change (if String.eqb "" "" then "" else " (from " ++ "" ++ ")") with "".
  rewrite append_nil_r.
  destruct (String.eqb (code e) "").
  - exists (sym ++ x ++ "- "). split.
    + now rewrite !append_assoc.
    + left. exists (sym ++ x). now rewrite append_assoc.
  - exists (sym ++ (x ++ "- ") ++ "[" ++ code e ++ "] "). split.
    + now rewrite !append_assoc.
    + right. exists (sym ++ (x ++ "- ") ++ "[" ++ code e).
      now rewrite !append_assoc.
Qed.

(** C3: after the time stamp the rendering opens with "[code] " followed
    by the message exactly when the code is not empty; it closes with the
    message followed by " (from source)" exactly when the source is not
    empty; with both fields set the code segment precedes the message and
    the source segment follows it; and each segment is decided by its own
    field alone. *)
Theorem C3_optional_segments (tz : Z) (e : Event) :
  (exists rest,
     toString tz e =
       (levelSymbol (level e)
        ++ put_time (localtime_s tz (timestamp e)) dateFormat) ++ rest /\
     (starts_with ("[" ++ code e ++ "] " ++ msg e) rest <-> code e <> ""))
  /\ (ends_with (msg e ++ " (from " ++ source e ++ ")") (toString tz e)
      <-> source e <> "")
  /\ toString tz e =
       levelSymbol (level e)
       ++ put_time (localtime_s tz (timestamp e)) dateFormat
       ++ (if String.eqb (code e) "" then "" else "[" ++ code e ++ "] ")
       ++ msg e
       ++ (if String.eqb (source e) "" then ""
           else " (from " ++ source e ++ ")").
Proof.
  split; [|split].
  - destruct (after_stamp tz e) as [rest [Hts Hrest]].
    exists rest. split; [exact Hts|]. split.
    + intros Hstart Hcode. rewrite Hcode in *. simpl in Hrest.
      subst rest. revert Hstart. apply no_empty_code_segment.
      destruct (String.eqb_spec (source e) ""); [left|right; eexists]; reflexivity.
    + intros Hcode. apply eqb_empty in Hcode. rewrite Hcode in Hrest.
      subst rest. eexists. rewrite !append_assoc. reflexivity.
  - split.
    + intros Hend Hsrc.
      destruct (before_message tz e Hsrc) as [front [Hts Hfront]].
      rewrite Hts, Hsrc in Hend.
      change (" (from " ++ "" ++ ")") with " (from )" in Hend.
      revert Hend. now apply no_empty_source_segment.
    + intros Hsrc. apply eqb_empty in Hsrc.
      rewrite toString_segments, Hsrc.
      eexists. rewrite <- !append_assoc. reflexivity.
  - apply toString_segments.
Qed.

(* ------------------------------------------------------------------ *)
(** ** The order on names *)

Lemma ascii_compare_refl (a : ascii) : Ascii.compare a a = Eq.
Proof. unfold Ascii.compare. apply N.compare_refl. Qed.

Lemma ascii_compare_lt_trans (a b c : ascii) :
  Ascii.compare a b = Lt -> Ascii.compare b c = Lt -> Ascii.compare a c = Lt.
Proof.
  unfold Ascii.compare. rewrite !N.compare_lt_iff. apply N.lt_trans.
Qed.

Lemma compare_refl (s : string) : String.compare s s = Eq.
Proof.
  induction s as [|a s IH]; simpl; [reflexivity|].
  now rewrite ascii_compare_refl.
Qed.

Lemma compare_eq (a b : string) : String.compare a b = Eq <-> a = b.
Proof.
  split; [apply String.compare_eq_iff | intros ->; apply compare_refl].
Qed.

Lemma compare_lt_trans : forall a b c,
  String.compare a b = Lt -> String.compare b c = Lt -> String.compare a c = Lt.
Proof.
  induction a as [|x a IH]; intros [|y b] [|z c]; simpl; try congruence.
  destruct (Ascii.compare x y) eqn:Hxy; try discriminate.
  - apply Ascii.compare_eq_iff in Hxy. subst y.
    destruct (Ascii.compare x z); try congruence. apply IH.
  - intros _. destruct (Ascii.compare y z) eqn:Hyz; try discriminate.
    + apply Ascii.compare_eq_iff in Hyz. subst z. now rewrite Hxy.
    + now rewrite (ascii_compare_lt_trans x y z Hxy Hyz).
Qed.

Lemma compare_lt_neq (a b : string) : String.compare a b = Lt -> a <> b.
Proof. intros H ->. rewrite compare_refl in H. discriminate. Qed.

Lemma compare_gt_lt (a b : string) :
  String.compare a b = Gt -> String.compare b a = Lt.
Proof. intros H. rewrite String.compare_antisym, H. reflexivity. Qed.

Lemma compare_gt_neq (a b : string) : String.compare a b = Gt -> a <> b.
Proof. intros H ->. rewrite compare_refl in H. discriminate. Qed.

(* ------------------------------------------------------------------ *)
(** ** The registry container *)

Lemma map_find_assign_same (k : string) (v : ptr) (m : registry) :
  map_find k (map_assign k v m) = Some v.
Proof.
  induction m as [|[k0 q] m IH]; simpl.
  - now rewrite String.eqb_refl.
  - destruct (String.compare k k0) eqn:Hc; simpl.
    + apply compare_eq in Hc. subst. now rewrite String.eqb_refl.
    + now rewrite String.eqb_refl.
    + apply compare_gt_neq, String.eqb_neq in Hc. now rewrite Hc.
Qed.

Lemma map_find_assign_other (k k' : string) (v : ptr) (m : registry) :
  k' <> k -> map_find k' (map_assign k v m) = map_find k' m.
Proof.
  intros Hne. induction m as [|[k0 q] m IH]; simpl.
  - apply String.eqb_neq in Hne. now rewrite Hne.
  - destruct (String.compare k k0) eqn:Hc; simpl.
    + apply compare_eq in Hc. subst k0.
      apply String.eqb_neq in Hne. now rewrite Hne.
    + apply String.eqb_neq in Hne. now rewrite Hne.
    + now rewrite IH.
Qed.

Lemma map_find_erase_same (k : string) (m : registry) :
  map_find k (map_erase k m) = None.
Proof.
  induction m as [|[k0 q] m IH]; simpl; [reflexivity|].
  destruct (String.eqb k k0) eqn:E; simpl; [assumption|]. now rewrite E.
Qed.

Lemma map_find_erase_other (k k' : string) (m : registry) :
  k' <> k -> map_find k' (map_erase k m) = map_find k' m.
Proof.
  intros Hne. induction m as [|[k0 q] m IH]; simpl; [reflexivity|].
  destruct (String.eqb k k0) eqn:E; simpl.
  - apply String.eqb_eq in E. subst k0.
    apply String.eqb_neq in Hne. now rewrite Hne.
  - now rewrite IH.
Qed.

Lemma map_find_In (k : string) (v : ptr) (m : registry) :
  map_find k m = Some v -> In (k, v) m.
Proof.
  induction m as [|[k0 q] m IH]; simpl; [discriminate|].
  destruct (String.eqb_spec k k0).
  - intros [= ->]. subst. now left.
  - intros H. right. auto.
Qed.

Lemma In_map_assign (x : string * ptr) (k : string) (v : ptr) (m : registry) :
  In x (map_assign k v m) -> x = (k, v) \/ In x m.
Proof.
  induction m as [|[k0 q] m IH]; simpl.
  - intros [H|[]]; auto.
  - destruct (String.compare k k0) eqn:Hc; simpl.
    + apply compare_eq in Hc. subst k0. intros [H|H]; auto.
    + intros [H|[H|H]]; auto.
    + intros [H|H]; auto. destruct (IH H); auto.
Qed.

Lemma In_map_erase (x : string * ptr) (k : string) (m : registry) :
  In x (map_erase k m) -> In x m.
Proof.
  induction m as [|[k0 q] m IH]; simpl; [auto|].
  destruct (String.eqb k k0); simpl; intuition.
Qed.

Lemma ordered_map_assign (k : string) (v : ptr) (m : registry) :
  ordered m -> ordered (map_assign k v m).
Proof.
  unfold ordered. induction m as [|[k0 q] m IH]; simpl; intros Hm.
  - repeat constructor.
  - inversion Hm as [|? ? Hrest Hall]; subst.
    destruct (String.compare k k0) eqn:Hc.
    + constructor; assumption.
    + constructor; [assumption|]. constructor; [exact Hc|].
      rewrite Forall_forall in *. intros y Hy. unfold key_lt in *. simpl.
      eapply compare_lt_trans; [exact Hc|]. apply (Hall y Hy).
    + constructor; [auto|].
      rewrite Forall_forall in *. intros y Hy.
      destruct (In_map_assign _ _ _ _ Hy) as [->|Hy']; [|auto].
      unfold key_lt. simpl. now apply compare_gt_lt.
Qed.

Lemma ordered_map_erase (k : string) (m : registry) :
  ordered m -> ordered (map_erase k m).
Proof.
  unfold ordered. induction m as [|[k0 q] m IH]; simpl; intros Hm; [assumption|].
  inversion Hm as [|? ? Hrest Hall]; subst.
  destruct (String.eqb k k0); [auto|].
  constructor; [auto|].
  rewrite Forall_forall in *. intros y Hy. apply Hall.
  eapply In_map_erase; eauto.
Qed.

(** In an ordered registry no name occurs twice. *)
Lemma ordered_NoDup (m : registry) : ordered m -> NoDup (names m).
Proof.
  unfold ordered, names. induction m as [|[k0 q] m IH]; simpl; intros Hm.
  - constructor.
  - inversion Hm as [|? ? Hrest Hall]; subst. constructor; [|auto].
    rewrite in_map_iff. intros [[k1 q1] [Hk Hin]]. simpl in Hk. subst k1.
    rewrite Forall_forall in Hall. specialize (Hall _ Hin).
    unfold key_lt in Hall. simpl in Hall. rewrite compare_refl in Hall.
    discriminate.
Qed.

Lemma NoDup_In_find (k : string) (v : ptr) (m : registry) :
  NoDup (names m) -> In (k, v) m -> map_find k m = Some v.
Proof.
  unfold names. induction m as [|[k0 q] m IH]; simpl; [contradiction|].
  intros Hnd [H|H].
  - inversion H; subst. now rewrite String.eqb_refl.
  - inversion Hnd as [|? ? Hnot Hrest]; subst.
    destruct (String.eqb_spec k k0).
    + subst k0. exfalso. apply Hnot. apply in_map_iff. now exists (k, v).
    + auto.
Qed.

(** A name is bound to at most one pointer. *)
Lemma ordered_functional (m : registry) (k : string) (p q : ptr) :
  ordered m -> In (k, p) m -> In (k, q) m -> p = q.
Proof.
  intros Hm Hp Hq. apply ordered_NoDup in Hm.
  pose proof (NoDup_In_find _ _ _ Hm Hp) as H1.
  pose proof (NoDup_In_find _ _ _ Hm Hq) as H2. congruence.
Qed.

Lemma map_find_None (k : string) (m : registry) :
  ~ In k (names m) -> map_find k m = None.
Proof.
  unfold names. induction m as [|[k0 q] m IH]; simpl; [reflexivity|].
  intros H. destruct (String.eqb_spec k k0).
  - subst. exfalso. auto.
  - auto.
Qed.

(* ------------------------------------------------------------------ *)
(** ** The heap *)

Local Open Scope list_scope.

Lemma heap_lookup_update (p q : ptr) (s : Stream) (h : list (ptr * Stream)) :
  heap_lookup q (heap_update p s h) =
  if N.eqb q p
  then match heap_lookup p h with Some _ => Some s | None => None end
  else heap_lookup q h.
Proof.
  induction h as [|[r old] h IH]; simpl.
  - now destruct (N.eqb q p).
  - destruct (N.eqb_spec p r) as [->|Hpr]; simpl.
    + destruct (N.eqb_spec q r); reflexivity.
    + rewrite IH. destruct (N.eqb_spec q p) as [->|Hqp].
      * destruct (N.eqb_spec p r); [contradiction|reflexivity].
      * reflexivity.
Qed.

Lemma heap_lookup_app (p : ptr) (h h' : list (ptr * Stream)) :
  heap_lookup p (h ++ h') =
  match heap_lookup p h with
  | Some s => Some s
  | None => heap_lookup p h'
  end.
Proof.
  induction h as [|[r old] h IH]; simpl; [reflexivity|].
  now destruct (N.eqb p r).
Qed.

Lemma heap_lookup_bound (p : ptr) (h : list (ptr * Stream)) :
  heap_lookup p h <> None -> (p < fresh h)%N.
Proof.
  unfold fresh. induction h as [|[r old] h IH]; simpl; [congruence|].
  destruct (N.eqb_spec p r) as [->|Hne]; intros H.
  - lia.
  - specialize (IH H). lia.
Qed.

Lemma heap_lookup_fresh (h : list (ptr * Stream)) :
  heap_lookup (fresh h) h = None.
Proof.
  destruct (heap_lookup (fresh h) h) eqn:E; [|reflexivity].
  assert (H : (fresh h < fresh h)%N)
    by (apply heap_lookup_bound; congruence).
  lia.
Qed.

Lemma fresh_not_null (h : list (ptr * Stream)) : fresh h <> nullptr.
Proof. unfold fresh, nullptr. lia. Qed.

(** What [new] gives: a non-null address that was not live, now holding
    the object, every other object untouched. *)
Lemma new_spec (s : Stream) (w : World) :
  fst (new s w) <> nullptr /\
  ~ live w (fst (new s w)) /\
  heap_lookup (fst (new s w)) (heap (snd (new s w))) = Some s /\
  (forall q, live w q ->
     heap_lookup q (heap (snd (new s w))) = heap_lookup q (heap w)).
Proof.
  unfold new, live. simpl. repeat split.
  - apply fresh_not_null.
  - rewrite heap_lookup_fresh. congruence.
  - rewrite heap_lookup_app, heap_lookup_fresh. simpl.
    now rewrite N.eqb_refl.
  - intros q Hq. rewrite heap_lookup_app.
    destruct (heap_lookup q (heap w)); congruence.
Qed.

(* ------------------------------------------------------------------ *)
(** ** Observations *)

Lemma offered_app (a b : list Obs) : offered (a ++ b) = offered a ++ offered b.
Proof.
  induction a as [|o a IH]; simpl; [reflexivity|].
  destruct o; simpl; congruence.
Qed.

Lemma handled_app (a b : list Obs) : handled (a ++ b) = handled a ++ handled b.
Proof.
  induction a as [|o a IH]; simpl; [reflexivity|].
  destruct o; simpl; congruence.
Qed.

Lemma constructed_app (a b : list Obs) :
  constructed (a ++ b) = constructed a ++ constructed b.
Proof.
  induction a as [|o a IH]; simpl; [reflexivity|].
  destruct o; simpl; congruence.
Qed.

(* ------------------------------------------------------------------ *)
(** ** One destination *)

Lemma same_masks_refl (w : World) : same_masks w w.
Proof. intros q. reflexivity. Qed.

Lemma same_masks_trans (a b c : World) :
  same_masks a b -> same_masks b c -> same_masks a c.
Proof. intros H1 H2 q. now rewrite H2, H1. Qed.

Lemma same_masks_live (w w' : World) (p : ptr) :
  same_masks w w' -> live w p -> live w' p.
Proof.
  unfold live. intros H Hp. specialize (H p).
  destruct (heap_lookup p (heap w)); [|congruence].
  destruct (heap_lookup p (heap w')); [congruence|discriminate].
Qed.

Lemma same_masks_mask_at (w w' : World) (p : ptr) :
  same_masks w w' -> mask_at w' p = mask_at w p.
Proof.
  unfold mask_at. intros H. specialize (H p).
  destruct (heap_lookup p (heap w)), (heap_lookup p (heap w'));
    simpl in H; congruence.
Qed.

(** What a handler leaves alone: the registry, the debug switch and the
    masks; what it adds to the observations is neither an offer, nor a
    handler entry, nor a construction. *)
Lemma handle_frame (tz : Z) (p : ptr) (s : Stream) (e : Event) (w : World) :
  heap_lookup p (heap w) = Some s ->
  exists added,
    trace (handle tz p s e w) = trace w ++ added /\
    offered added = [] /\ handled added = [] /\ constructed added = [] /\
    instance (handle tz p s e w) = instance w /\
    showDebug (handle tz p s e w) = showDebug w /\
    same_masks w (handle tz p s e w).
Proof.
  intros Hp. unfold handle.
  destruct (derived s) as [file| |events|e0].
  - destruct (fs_open_append file (files w)) as [content|]; simpl.
    + eexists. rewrite <- app_assoc. simpl. split; [reflexivity|].
      repeat split.
    + eexists. split; [reflexivity|]. repeat split.
  - simpl. eexists. split; [reflexivity|]. repeat split.
  - simpl. exists []. rewrite app_nil_r. repeat split.
    intros q. simpl. rewrite heap_lookup_update, Hp.
    destruct (N.eqb_spec q p) as [->|]; [now rewrite Hp|reflexivity].
  - simpl. exists []. rewrite app_nil_r. repeat split.
    intros q. simpl. rewrite heap_lookup_update, Hp.
    destruct (N.eqb_spec q p) as [->|]; [now rewrite Hp|reflexivity].
Qed.

(** [call] on a live object: one offer, and a handler run exactly when
    the mask has the level. *)
Lemma call_spec (tz : Z) (p : ptr) (e : Event) (w : World) (s : Stream) :
  heap_lookup p (heap w) = Some s ->
  exists w' added,
    call tz p e w = Some w' /\
    trace w' = trace w ++ added /\
    offered added = [(p, e)] /\
    handled added = (if accepts (levels s) (level e) then [(p, e)] else []) /\
    constructed added = [] /\
    instance w' = instance w /\ showDebug w' = showDebug w /\
    same_masks w w'.
Proof.
  intros Hp. unfold call. rewrite Hp.
  destruct (accepts (levels s) (level e)).
  - destruct (handle_frame tz p s e
                (observe [Handled p e] (observe [Offered p e] w)) Hp)
      as [added [Ht [Ho [Hh [Hc [Hi [Hd Hm]]]]]]].
    eexists. exists ([Offered p e] ++ [Handled p e] ++ added).
    split; [reflexivity|]. rewrite Ht. simpl.
    rewrite <- !app_assoc. simpl. rewrite Ho, Hh, Hc.
    repeat split; try assumption.
  - eexists. exists [Offered p e]. split; [reflexivity|].
    repeat split.
Qed.

(* ------------------------------------------------------------------ *)
(** ** The dispatch loop *)

(** The level test, as a test of one bit. *)
Lemma land_pow2_testbit (M k : Z) :
  0 <= k -> (Z.land M (2 ^ k) = 2 ^ k <-> Z.testbit M k = true).
Proof.
  intros Hk. split; intros H.
  - assert (Hb : Z.testbit (Z.land M (2 ^ k)) k = true)
      by (rewrite H; now apply Z.pow2_bits_true).
    rewrite Z.land_spec in Hb. now apply andb_true_iff in Hb.
  - apply Z.bits_inj'. intros n Hn.
    rewrite Z.land_spec, Z.pow2_bits_eqb by assumption.
    destruct (Z.eqb_spec k n) as [<-|Hne].
    + now rewrite H.
    + apply andb_false_r.
Qed.

Lemma level_value_pow2 (l : LEVELS) :
  level_value l = 2 ^ level_bit l /\ 0 <= level_bit l.
Proof. destruct l; simpl; split; reflexivity || lia. Qed.

Lemma accepts_iff (M : Z) (l : LEVELS) :
  accepts M l = true <-> Z.land M (level_value l) = level_value l.
Proof. unfold accepts. apply Z.eqb_eq. Qed.

Lemma accepts_testbit (M : Z) (l : LEVELS) :
  Z.land M (level_value l) = level_value l <->
  Z.testbit M (level_bit l) = true.
Proof.
  destruct (level_value_pow2 l) as [-> Hk]. now apply land_pow2_testbit.
Qed.

(** The loop offers the event to each entry in turn, and runs the handler
    of those whose mask has the level. *)
Lemma notify_all_spec (tz : Z) (e : Event) : forall entries w,
  (forall name p, In (name, p) entries -> live w p) ->
  exists w' added,
    notify_all tz entries e w = Some w' /\
    trace w' = trace w ++ added /\
    offered added = map (fun np => (snd np, e)) entries /\
    handled added =
      map (fun np => (snd np, e))
        (filter (fun np => accepts (mask_at w (snd np)) (level e)) entries) /\
    constructed added = [] /\
    instance w' = instance w /\ showDebug w' = showDebug w /\
    same_masks w w'.
Proof.
  induction entries as [|[name p] rest IH]; intros w Hlive; simpl.
  - exists w, []. rewrite app_nil_r. repeat split.
  - assert (Hp : live w p) by (apply (Hlive name); now left).
    unfold live in Hp.
    destruct (heap_lookup p (heap w)) as [s|] eqn:Es; [|congruence].
    destruct (call_spec tz p e w s Es)
      as [w1 [a1 [Hcall [Ht1 [Ho1 [Hh1 [Hc1 [Hi1 [Hd1 Hm1]]]]]]]]].
    rewrite Hcall.
    destruct (IH w1) as [w2 [a2 [Hn [Ht2 [Ho2 [Hh2 [Hc2 [Hi2 [Hd2 Hm2]]]]]]]]].
    { intros n q Hq. apply (same_masks_live w); [assumption|].
      apply (Hlive n). now right. }
    exists w2, (a1 ++ a2). split; [assumption|].
    rewrite offered_app, handled_app, constructed_app.
    rewrite Ht2, Ht1, Ho1, Ho2, Hh1, Hh2, Hc1, Hc2, app_assoc.
    repeat split; try congruence;
      try (eapply same_masks_trans; eassumption).
    unfold mask_at at 2. rewrite Es.
    rewrite (filter_ext (fun np => accepts (mask_at w1 (snd np)) (level e))
               (fun np => accepts (mask_at w (snd np)) (level e))).
    + now destruct (accepts (levels s) (level e)).
    + intros np. now rewrite (same_masks_mask_at w w1).
Qed.

Lemma getInstance_instance (w : World) : instance (getInstance w) <> None.
Proof.
  unfold getInstance. destruct (instance w) eqn:E; [congruence|].
  simpl. discriminate.
Qed.

Lemma getInstance_active (w : World) :
  instance w <> None -> getInstance w = w.
Proof. unfold getInstance. destruct (instance w); congruence. Qed.

Lemma getInstance_idem (w : World) : getInstance (getInstance w) = getInstance w.
Proof. apply getInstance_active, getInstance_instance. Qed.

Lemma getInstance_showDebug (w : World) :
  showDebug (getInstance w) = showDebug w.
Proof. unfold getInstance. now destruct (instance w). Qed.

(** The guarded block of [log]: the registry is brought up, one event is
    constructed, and the loop runs over the registry. *)
Lemma dispatch_spec (tz now : Z) (l : LEVELS) (m : string)
    (src cd : option string) (w : World) :
  registry_live (getInstance w) ->
  exists w' added,
    dispatch tz now l m src cd w = Some w' /\
    trace w' =
      trace (getInstance w)
      ++ Constructed (Event_new now l m src cd None) :: added /\
    offered added =
      map (fun np => (snd np, Event_new now l m src cd None))
        (inst_streams (getInstance w)) /\
    handled added =
      map (fun np => (snd np, Event_new now l m src cd None))
        (filter (fun np => accepts (mask_at (getInstance w) (snd np)) l)
           (inst_streams (getInstance w))) /\
    constructed added = [] /\
    instance w' = instance (getInstance w) /\
    showDebug w' = showDebug w /\
    same_masks (getInstance w) w'.
Proof.
  intros Hlive. unfold dispatch.
  set (e := Event_new now l m src cd None).
  set (w0 := getInstance w) in *.
  destruct (notify_all_spec tz e (inst_streams w0) (observe [Constructed e] w0))
    as [w' [added [Hn [Ht [Ho [Hh [Hc [Hi [Hd Hm]]]]]]]]].
  { intros n p Hin. apply (Hlive n p Hin). }
  exists w', added. split; [exact Hn|].
  rewrite Ht, Ho, Hh. simpl. rewrite <- app_assoc. simpl.
  repeat split; try assumption.
  rewrite Hd. simpl. apply getInstance_showDebug.
Qed.

Lemma log_visible (tz : Z) (dbg : bool) (now : Z) (l : LEVELS) (m : string)
    (src cd : option string) (w : World) :
  negb (LEVELS_eqb l DBG) || debugVisible dbg w = true ->
  log tz dbg now l m src cd w = dispatch tz now l m src cd w.
Proof. intros H. unfold log. now rewrite H. Qed.


(* ------------------------------------------------------------------ *)
(** ** The debug switch *)

(** Nothing but the gate of [log] reads [showDebug]: every other step
    commutes with setting it. *)
Lemma handle_showDebug (tz : Z) (p : ptr) (s : Stream) (e : Event)
    (b : bool) (w : World) :
  handle tz p s e (with_showDebug b w) = with_showDebug b (handle tz p s e w).
Proof.
  unfold handle. destruct (derived s); simpl; try reflexivity.
  now destruct (fs_open_append file (files w)).
Qed.

Lemma call_showDebug (tz : Z) (p : ptr) (e : Event) (b : bool) (w : World) :
  call tz p e (with_showDebug b w) =
  option_map (with_showDebug b) (call tz p e w).
Proof.
  unfold call. simpl. destruct (heap_lookup p (heap w)) as [s|]; [|reflexivity].
  destruct (accepts (levels s) (level e)); simpl; [|reflexivity].
  f_equal. apply (handle_showDebug tz p s e b
                    (observe [Handled p e] (observe [Offered p e] w))).
Qed.

Lemma notify_all_showDebug (tz : Z) (e : Event) (b : bool) :
  forall entries w,
    notify_all tz entries e (with_showDebug b w) =
    option_map (with_showDebug b) (notify_all tz entries e w).
Proof.
  induction entries as [|[name p] rest IH]; intros w; simpl; [reflexivity|].
  rewrite call_showDebug. destruct (call tz p e w) as [w1|]; simpl; auto.
Qed.

Lemma getInstance_with_showDebug (b : bool) (w : World) :
  getInstance (with_showDebug b w) = with_showDebug b (getInstance w).
Proof. unfold getInstance. simpl. now destruct (instance w). Qed.

Lemma dispatch_showDebug (tz now : Z) (l : LEVELS) (m : string)
    (src cd : option string) (b : bool) (w : World) :
  dispatch tz now l m src cd (with_showDebug b w) =
  option_map (with_showDebug b) (dispatch tz now l m src cd w).
Proof.
  unfold dispatch. rewrite getInstance_with_showDebug.
  apply (notify_all_showDebug tz _ b _
           (observe [Constructed (Event_new now l m src cd None)]
              (getInstance w))).
Qed.

Lemma LEVELS_eqb_DBG (l : LEVELS) : LEVELS_eqb l DBG = false <-> l <> DBG.
Proof. destruct l; unfold LEVELS_eqb; simpl; split; congruence. Qed.

(* ------------------------------------------------------------------ *)
(** ** Invariants of a run *)

Lemma getStream_world (name : string) (w : World) :
  snd (getStream name w) = getInstance w.
Proof.
  unfold getStream. now destruct (map_find name (inst_streams (getInstance w))).
Qed.

Lemma getStream_result (name : string) (w : World) :
  fst (getStream name w) =
  match map_find name (inst_streams (getInstance w)) with
  | Some p => p
  | None => nullptr
  end.
Proof.
  unfold getStream. now destruct (map_find name (inst_streams (getInstance w))).
Qed.

Lemma addStream_streams (name : string) (d : ptr) (w : World) :
  inst_streams (addStream name d w) =
  map_assign name d (inst_streams (getInstance w)).
Proof. reflexivity. Qed.

Lemma addStream_instance (name : string) (d : ptr) (w : World) :
  instance (addStream name d w) <> None.
Proof. simpl. discriminate. Qed.

(** Inside [getInstance] the call [instance->addStream] is the plain
    assignment: with the instance in place, [addStream] is
    [streams_assign]. *)
Lemma addStream_active (name : string) (d : ptr) (w : World) :
  instance w <> None -> addStream name d w = streams_assign name d w.
Proof. intros H. unfold addStream. now rewrite getInstance_active. Qed.

Lemma removeStream_world (name : string) (w : World) :
  snd (removeStream name w) =
  match map_find name (inst_streams (getInstance w)) with
  | Some p =>
      if N.eqb p nullptr then getInstance w
      else with_instance
             (Some {| streams := map_erase name (inst_streams (getInstance w)) |})
             (getInstance w)
  | None => getInstance w
  end.
Proof.
  unfold removeStream, getStream. rewrite getInstance_idem.
  destruct (map_find name (inst_streams (getInstance w))) as [p|]; simpl.
  - now destruct (N.eqb p nullptr).
  - reflexivity.
Qed.

Lemma removeStream_result (name : string) (w : World) :
  fst (removeStream name w) = fst (getStream name w).
Proof.
  unfold removeStream, getStream. rewrite getInstance_idem.
  destruct (map_find name (inst_streams (getInstance w))) as [p|]; simpl.
  - now destruct (N.eqb p nullptr).
  - reflexivity.
Qed.

(** The loop leaves the registry alone and only adds observations, also
    when nothing is known about the pointers. *)
Lemma notify_all_frame (tz : Z) (e : Event) : forall entries w w',
  notify_all tz entries e w = Some w' ->
  instance w' = instance w /\ exists added, trace w' = trace w ++ added.
Proof.
  induction entries as [|[name p] rest IH]; intros w w' H; simpl in H.
  - inversion H; subst. split; [reflexivity|]. exists []. now rewrite app_nil_r.
  - destruct (call tz p e w) as [w1|] eqn:Ec; [|discriminate].
    assert (Hs : exists s, heap_lookup p (heap w) = Some s).
    { unfold call in Ec. destruct (heap_lookup p (heap w)); [eauto|discriminate]. }
    destruct Hs as [s Hs].
    destruct (call_spec tz p e w s Hs) as [w1' [a1 [Hc [Ht [_ [_ [_ [Hi _]]]]]]]].
    rewrite Ec in Hc. inversion Hc; subst w1'.
    destruct (IH _ _ H) as [Hi2 [a2 Ht2]].
    split; [congruence|]. exists (a1 ++ a2). now rewrite Ht2, Ht, app_assoc.
Qed.

Lemma invariant_streams_assign (name : string) (d : ptr) (w : World) :
  run_invariant w -> run_invariant (streams_assign name d w).
Proof.
  intros [Ho Hr]. split; simpl.
  - now apply ordered_map_assign.
  - intros n p Hin. apply in_or_app.
    destruct (In_map_assign _ _ _ _ Hin) as [Heq|Hold].
    + inversion Heq; subst. right. now left.
    + left. auto.
Qed.

Lemma invariant_with_heap (h : list (ptr * Stream)) (w : World) :
  run_invariant w -> run_invariant (with_heap h w).
Proof. intros H. exact H. Qed.

(** The first [getInstance], step by step. *)
Lemma getInstance_first (w : World) :
  instance w = None ->
  let p1 := fresh (heap w) in
  let h1 := heap w ++ [(p1, TextFileStream_new (Some "log.txt"))] in
  let p2 := fresh h1 in
  let h2 := h1 ++ [(p2, ConsoleStream_new)] in
  getInstance w =
  streams_assign "defaultConsole" p2
    (with_heap h2
       (streams_assign "defaultTextFile" p1
          (with_heap h1 (with_instance (Some {| streams := [] |}) w)))).
Proof. intros E. unfold getInstance. rewrite E. reflexivity. Qed.

Lemma invariant_getInstance (w : World) :
  run_invariant w -> run_invariant (getInstance w).
Proof.
  intros Hw. destruct (instance w) eqn:E.
  - rewrite getInstance_active; congruence.
  - rewrite (getInstance_first w E).
    apply invariant_streams_assign, invariant_with_heap,
      invariant_streams_assign, invariant_with_heap.
    split; simpl; [constructor | contradiction].
Qed.

Lemma invariant_reachable (tz : Z) (dbg : bool) (w : World) :
  reachable tz dbg w -> run_invariant w.
Proof.
  induction 1 as [fs | s w _ IH | p w _ IH | p mask s w _ IH _
                 | p filename s w _ IH _ | name w _ IH | name stream w _ IH
                 | name w _ IH | show w _ IH
                 | now lvl m src cd w w' _ IH Hlog];
    try exact IH.
  - split; simpl; [constructor | contradiction].
  - rewrite getStream_world. now apply invariant_getInstance.
  - apply invariant_streams_assign. now apply invariant_getInstance.
  - apply invariant_getInstance in IH. rewrite removeStream_world.
    destruct (map_find name (inst_streams (getInstance w))) as [p|];
      [|assumption].
    destruct (N.eqb p nullptr); [assumption|].
    destruct IH as [Ho Hr].
    set (reg := inst_streams (getInstance w)) in *.
    split; simpl.
    + now apply ordered_map_erase.
    + intros n q Hin. apply Hr. apply (In_map_erase _ name). exact Hin.
  - unfold log in Hlog.
    destruct (negb (LEVELS_eqb lvl DBG) || debugVisible dbg w).
    + unfold dispatch in Hlog. apply notify_all_frame in Hlog.
      destruct Hlog as [Hi [added Ht]]. simpl in Hi, Ht.
      apply invariant_getInstance in IH. destruct IH as [Ho Hr].
      unfold run_invariant, inst_streams in *. rewrite Hi, Ht.
      split; [assumption|]. intros n p Hin.
      apply in_or_app. left. apply in_or_app. left. auto.
    + inversion Hlog; subst. assumption.
Qed.

(* ------------------------------------------------------------------ *)
(** ** The registry operations *)

Lemma inst_streams_with_instance (l : Log) (w : World) :
  inst_streams (with_instance (Some l) w) = streams l.
Proof. reflexivity. Qed.

Lemma getStream_after_add (name : string) (d : ptr) (w : World) :
  fst (getStream name (addStream name d w)) = d.
Proof.
  rewrite getStream_result.
  rewrite getInstance_active by apply addStream_instance.
  rewrite addStream_streams. now rewrite map_find_assign_same.
Qed.

(** C5: a name that no registration ever used is looked up as [nullptr];
    right after [addStream(name, d)], [getStream(name)] is [d]; a following
    [removeStream(name)] returns [d], and [getStream(name)] is [nullptr]
    again. *)
Theorem C5_registry_roundtrip (tz : Z) (dbg : bool) (name : string) (d : ptr)
    (w : World) :
  reachable tz dbg w ->
  (~ was_registered (getInstance w) name ->
     fst (getStream name w) = nullptr)
  /\ fst (getStream name (addStream name d w)) = d
  /\ fst (removeStream name (addStream name d w)) = d
  /\ fst (getStream name (snd (removeStream name (addStream name d w))))
     = nullptr.
Proof.
  intros Hreach. split; [|split; [|split]].
  - intros Hnever. rewrite getStream_result.
    destruct (map_find name (inst_streams (getInstance w))) as [p|] eqn:E;
      [|reflexivity].
    exfalso. apply Hnever. exists p.
    apply invariant_reachable, invariant_getInstance in Hreach.
    apply Hreach. now apply map_find_In.
  - apply getStream_after_add.
  - rewrite removeStream_result. apply getStream_after_add.
  - rewrite removeStream_world.
    rewrite getInstance_active by apply addStream_instance.
    rewrite addStream_streams, map_find_assign_same.
    destruct (N.eqb_spec d nullptr) as [Hd|Hd].
    + rewrite getStream_after_add. exact Hd.
    + rewrite getStream_result. rewrite getInstance_active by (simpl; discriminate).
      rewrite inst_streams_with_instance. simpl streams.
      now rewrite map_find_erase_same.
Qed.

(** Assigning to a name that is present replaces in place: the names stay
    as they were. *)
Lemma names_assign_present (n : string) (d old : ptr) (m : registry) :
  ordered m -> map_find n m = Some old ->
  names (map_assign n d m) = names m.
Proof.
  unfold ordered, names. induction m as [|[k0 q] m IH]; simpl; [discriminate|].
  intros Hm Hfind. inversion Hm as [|? ? Hrest Hall]; subst.
  destruct (String.compare n k0) eqn:Hc; simpl.
  - reflexivity.
  - exfalso. pose proof (compare_lt_neq _ _ Hc) as Hne.
    apply String.eqb_neq in Hne. rewrite Hne in Hfind.
    apply map_find_In in Hfind. rewrite Forall_forall in Hall.
    specialize (Hall _ Hfind). unfold key_lt in Hall. simpl in Hall.
    pose proof (compare_lt_trans _ _ _ Hc Hall) as Hnn.
    rewrite compare_refl in Hnn. discriminate.
  - pose proof (compare_gt_neq _ _ Hc) as Hne.
    apply String.eqb_neq in Hne. rewrite Hne in Hfind.
    f_equal. auto.
Qed.

(** C9: in every reachable state a name is bound to at most one
    destination; and [addStream] on a name that is already registered goes
    through: afterwards [getStream(name)] is the new destination, the name
    has no other binding, the set of names is as before, and the other
    names keep their destinations. *)
Theorem C9_unique_names_overwrite (tz : Z) (dbg : bool) (w : World) :
  reachable tz dbg w ->
  NoDup (names (inst_streams w))
  /\ (forall n p q,
        In (n, p) (inst_streams w) -> In (n, q) (inst_streams w) -> p = q)
  /\ (forall n old d,
        map_find n (inst_streams (getInstance w)) = Some old ->
        fst (getStream n (addStream n d w)) = d
        /\ (forall p', In (n, p') (inst_streams (addStream n d w)) -> p' = d)
        /\ names (inst_streams (addStream n d w))
           = names (inst_streams (getInstance w))
        /\ (forall n', n' <> n ->
              map_find n' (inst_streams (addStream n d w))
              = map_find n' (inst_streams (getInstance w)))).
Proof.
  intros Hreach.
  pose proof (invariant_reachable _ _ _ Hreach) as [Ho _].
  split; [now apply ordered_NoDup|]. split.
  - intros n p q. now apply ordered_functional.
  - intros n old d Hold.
    pose proof (invariant_reachable _ _ _ (reach_addStream tz dbg n d w Hreach))
      as [Ho' _].
    pose proof (invariant_getInstance w (invariant_reachable _ _ _ Hreach))
      as [Hg _].
    split; [apply getStream_after_add|]. split; [|split].
    + intros p' Hin.
      apply (ordered_functional _ n p' d Ho' Hin).
      apply map_find_In. rewrite addStream_streams.
      apply map_find_assign_same.
    + rewrite addStream_streams. now apply (names_assign_present n d old).
    + intros n' Hne. rewrite addStream_streams.
      now apply map_find_assign_other.
Qed.

(* ------------------------------------------------------------------ *)
(** ** The file destination *)

Lemma fs_lookup_store_same (path : string) (n : FileNode) (fs : filesystem) :
  fs_lookup path (fs_store path n fs) = Some n.
Proof.
  induction fs as [|[k old] fs IH]; simpl.
  - now rewrite String.eqb_refl.
  - destruct (String.eqb path k) eqn:E; simpl; now rewrite E.
Qed.

Lemma fs_lookup_store_other (path other : string) (n : FileNode)
    (fs : filesystem) :
  other <> path -> fs_lookup other (fs_store path n fs) = fs_lookup other fs.
Proof.
  intros Hne. induction fs as [|[k old] fs IH]; simpl.
  - apply String.eqb_neq in Hne. now rewrite Hne.
  - destruct (String.eqb_spec path k) as [->|Hpk]; simpl.
    + apply String.eqb_neq in Hne. now rewrite Hne.
    + now rewrite IH.
Qed.

(** C6 (as the code has it): a [TextFileStream] constructed without a
    file name holds "Log.txt"; constructed with a name it holds that name;
    and the default file destination that the registry seeds is constructed
    with the name "log.txt". *)
Theorem C6_default_filename (w : World) :
  file_of (TextFileStream_new None) = Some "Log.txt"%string
  /\ (forall f, file_of (TextFileStream_new (Some f)) = Some f)
  /\ (exists p s,
        map_find "defaultTextFile"
          (inst_streams (getInstance (with_instance None w))) = Some p /\
        heap_lookup p (heap (getInstance (with_instance None w))) = Some s /\
        file_of s = Some "log.txt"%string).
Proof.
  split; [reflexivity|]. split; [reflexivity|].
  rewrite (getInstance_first (with_instance None w) eq_refl).
  cbv zeta. simpl heap. simpl inst_streams.
  exists (fresh (heap w)), (TextFileStream_new (Some "log.txt"%string)).
  split; [reflexivity|]. split; [|reflexivity].
  rewrite !heap_lookup_app, heap_lookup_fresh. simpl.
  now rewrite N.eqb_refl.
Qed.


(* ------------------------------------------------------------------ *)
(** ** First use *)

(** What the first [getInstance] leaves behind: two entries, bound to two
    new objects. *)
Lemma getInstance_seed (w : World) :
  instance w = None ->
  exists p1 p2,
    inst_streams (getInstance w)
      = [("defaultConsole"%string, p2); ("defaultTextFile"%string, p1)] /\
    heap_lookup p1 (heap (getInstance w))
      = Some {| levels := ALL_LEVELS; derived := TextFileStream "log.txt" |} /\
    heap_lookup p2 (heap (getInstance w))
      = Some {| levels := ALL_LEVELS; derived := ConsoleStream |} /\
    p1 <> p2.
Proof.
  intros E. rewrite (getInstance_first w E). cbv zeta.
  set (a := TextFileStream_new (Some "log.txt"%string)).
  set (p1 := fresh (heap w)).
  set (p2 := fresh (heap w ++ [(p1, a)])).
  assert (H1 : heap_lookup p1 (heap w ++ [(p1, a)]) = Some a).
  { rewrite heap_lookup_app. unfold p1. rewrite heap_lookup_fresh. simpl.
    now rewrite N.eqb_refl. }
  assert (Hlt : (p1 < p2)%N) by (apply heap_lookup_bound; congruence).
  exists p1, p2. split; [reflexivity|]. simpl heap. split; [|split].
  - rewrite heap_lookup_app, H1. reflexivity.
  - rewrite heap_lookup_app. unfold p2 at 1. rewrite heap_lookup_fresh.
    simpl. now rewrite N.eqb_refl.
  - lia.
Qed.

Lemma accepts_ALL_LEVELS (l : LEVELS) : accepts ALL_LEVELS l = true.
Proof. now destruct l. Qed.

(** C10: the default-constructed event has level INFO and empty message,
    source and code, and renders as the INFO symbol and the time stamp
    with nothing after it. *)
Theorem C10_default_event (tz : Z) :
  level Event_default = INFO
  /\ msg Event_default = ""%string
  /\ source Event_default = ""%string
  /\ code Event_default = ""%string
  /\ levelSymbol INFO = "   "%string
  /\ toString tz Event_default
     = (levelSymbol INFO
        ++ put_time (localtime_s tz (timestamp Event_default)) dateFormat)%string.
Proof.
  repeat split. rewrite toString_segments. simpl code. simpl source.
  simpl msg. simpl level. simpl String.eqb. cbv iota.
  now rewrite !append_nil_r.
Qed.

(* ------------------------------------------------------------------ *)
(** ** The properties at work on the test scenarios *)

Lemma levels_scenario_live : registry_live (getInstance levels_scenario).
Proof.
  intros n p Hin. vm_compute in Hin.
  destruct Hin as [H|[H|[H|[H|[]]]]]; inversion H; subst;
    unfold live; vm_compute; discriminate.
Defined.

(** "Streams Management": "Target" is unknown, then bound to the stream,
    then unknown again. *)
Lemma C5_witness :
  reachable 0 false (snd management_scenario)
  /\ ~ was_registered (getInstance (snd management_scenario)) "Target"
  /\ fst (getStream "Target" (snd management_scenario)) = nullptr
  /\ fst (getStream "Target"
            (addStream "Target" (fst management_scenario)
               (snd management_scenario)))
     = fst management_scenario
  /\ fst (removeStream "Target"
            (addStream "Target" (fst management_scenario)
               (snd management_scenario)))
     = fst management_scenario.
Proof.
  assert (Hr : reachable 0 false (snd management_scenario))
    by (apply reach_new, reach_start).
  assert (Hn : ~ was_registered (getInstance (snd management_scenario))
                 "Target").
  { intros [p Hp]. vm_compute in Hp. destruct Hp as [Hp|[Hp|[]]]; discriminate. }
  destruct (C5_registry_roundtrip 0 false "Target" (fst management_scenario)
              (snd management_scenario) Hr) as [H1 [H2 [H3 _]]].
  split; [exact Hr|]. split; [exact Hn|]. split; [exact (H1 Hn)|].
  split; [exact H2 | exact H3].
Defined.

(** The default constructor argument is not the name of the default log
    file. *)
Lemma C6_counterexample :
  file_of (TextFileStream_new None) <> Some "log.txt"%string.
Proof. vm_compute. discriminate. Qed.


(** A first call that is a suppressed [debug] leaves the registry
    uncreated. *)
Lemma C8_counterexample :
  instance (World_start []) = None
  /\ debug 0 false 0 "dbg_msg" None None (World_start [])
     = Some (World_start [])
  /\ ~ (exists w',
          debug 0 false 0 "dbg_msg" None None (World_start []) = Some w' /\
          instance w' <> None).
Proof.
  split; [reflexivity|]. split; [reflexivity|].
  intros [w' [H Hi]]. vm_compute in H. inversion H; subst. now apply Hi.
Qed.

(** Registering "Test" twice: the second stream replaces the first. *)
Lemma C9_witness :
  reachable 0 false (addStream "Test" 5%N (World_start []))
  /\ map_find "Test"
       (inst_streams (getInstance (addStream "Test" 5%N (World_start []))))
     = Some 5%N
  /\ fst (getStream "Test"
            (addStream "Test" 6%N (addStream "Test" 5%N (World_start []))))
     = 6%N
  /\ names (inst_streams
              (addStream "Test" 6%N (addStream "Test" 5%N (World_start []))))
     = names (inst_streams
                (getInstance (addStream "Test" 5%N (World_start [])))).
Proof.
  assert (Hr : reachable 0 false (addStream "Test" 5%N (World_start [])))
    by (apply reach_addStream, reach_start).
  assert (Hf : map_find "Test"
                 (inst_streams
                    (getInstance (addStream "Test" 5%N (World_start []))))
               = Some 5%N) by reflexivity.
  destruct (C9_unique_names_overwrite 0 false _ Hr) as [_ [_ H]].
  destruct (H "Test"%string 5%N 6%N Hf) as [H1 [_ [H3 _]]].
  split; [exact Hr|]. split; [exact Hf|]. split; [exact H1 | exact H3].
Defined.

(* ================================================================== *)
(** * Further properties *)

(** ** Masks *)

Lemma level_bit_of_value (l l' : LEVELS) :
  Z.testbit (level_value l) (level_bit l') = true <-> l = l'.
Proof. destruct l, l'; simpl; split; congruence. Qed.

Lemma accepts_bit (M : Z) (l : LEVELS) :
  accepts M l = Z.testbit M (level_bit l).
Proof.
  apply Bool.eq_true_iff_eq. rewrite accepts_iff. apply accepts_testbit.
Qed.

(** X1: a mask written as the union of some levels accepts exactly those
    levels. *)
Theorem X1_mask_of_levels (ls : list LEVELS) (l : LEVELS) :
  accepts (mask_of ls) l = true <-> In l ls.
Proof.
  rewrite accepts_bit.
  induction ls as [|l0 ls IH]; simpl.
  - rewrite Z.bits_0. split; [discriminate | contradiction].
  - rewrite Z.lor_spec, orb_true_iff, level_bit_of_value, IH. reflexivity.
Qed.

(** X2: only the five level bits of a mask matter: a mask and its
    remainder modulo 32 accept the same levels; the mask 0 accepts none and
    the mask -1 accepts all. *)
Theorem X2_mask_low_bits (M : Z) (l : LEVELS) :
  accepts M l = accepts (M mod 32) l
  /\ accepts (Z.land M ALL_LEVELS) l = accepts M l
  /\ accepts 0 l = false
  /\ accepts (-1) l = true.
Proof.
  assert (Hland : accepts (Z.land M ALL_LEVELS) l = accepts M l).
  { rewrite !accepts_bit, Z.land_spec.
    replace (Z.testbit ALL_LEVELS (level_bit l)) with true
      by (now destruct l).
    apply andb_true_r. }
  split; [|split; [exact Hland|split; now destruct l]].
  rewrite <- Hland. change ALL_LEVELS with (Z.ones 5).
  rewrite Z.land_ones by lia. reflexivity.
Qed.

(* ------------------------------------------------------------------ *)
(** ** Rendering, read back *)

Lemma levelSymbol_inj (a b : LEVELS) : levelSymbol a = levelSymbol b -> a = b.
Proof. destruct a, b; simpl; congruence. Qed.

Lemma substring_symbol (l : LEVELS) (rest : string) :
  substring 0 3 (levelSymbol l ++ rest)%string = levelSymbol l.
Proof. destruct l; simpl; now destruct rest. Qed.

(** X3: the first three characters of a rendered event are its level
    symbol, and the symbol tells the level: two events that render alike
    have the same level. *)
Theorem X3_level_read_back (tz : Z) (e1 e2 : Event) :
  substring 0 3 (toString tz e1) = levelSymbol (level e1)
  /\ (toString tz e1 = toString tz e2 -> level e1 = level e2).
Proof.
  assert (H : forall e, substring 0 3 (toString tz e) = levelSymbol (level e)).
  { intros e. rewrite toString_segments. apply substring_symbol. }
  split; [apply H|].
  intros Heq. apply levelSymbol_inj. rewrite <- !H. now rewrite Heq.
Qed.

(* ------------------------------------------------------------------ *)
(** ** The debug build *)

(** X4: in a build that defines [SHOW_DEBUG], every log call, DBG
    included, runs the dispatch block, and setting the switch before the
    call or after it makes no difference. *)
Theorem X4_debug_build (tz now : Z) (l : LEVELS) (m : string)
    (src cd : option string) (show : bool) (w : World) :
  log tz true now l m src cd w = dispatch tz now l m src cd w
  /\ log tz true now l m src cd (forceDebug show w)
     = option_map (forceDebug show) (log tz true now l m src cd w).
Proof.
  assert (H : forall w', log tz true now l m src cd w'
                         = dispatch tz now l m src cd w').
  { intros w'. apply log_visible. unfold debugVisible. apply orb_true_r. }
  split; [apply H|]. rewrite !H. apply dispatch_showDebug.
Qed.

(* ------------------------------------------------------------------ *)
(** ** What a log call needs and what it leaves alone *)

Lemma same_masks_live_back (w w' : World) (p : ptr) :
  same_masks w w' -> live w' p -> live w p.
Proof.
  unfold live. intros H Hp. specialize (H p).
  destruct (heap_lookup p (heap w')); [|congruence].
  destruct (heap_lookup p (heap w)); [congruence|discriminate].
Qed.

Lemma call_Some_live (tz : Z) (p : ptr) (e : Event) (w w' : World) :
  call tz p e w = Some w' -> live w p.
Proof.
  unfold call, live. destruct (heap_lookup p (heap w)); congruence.
Qed.

(** The loop completes only if every entry points to a live object. *)
Lemma notify_all_Some_live (tz : Z) (e : Event) : forall entries w w',
  notify_all tz entries e w = Some w' ->
  forall n p, In (n, p) entries -> live w p.
Proof.
  induction entries as [|[n0 q] rest IH]; intros w w' H n p Hin;
    [contradiction|].
  simpl in H. destruct (call tz q e w) as [w1|] eqn:Ec; [|discriminate].
  pose proof (call_Some_live _ _ _ _ _ Ec) as Hq.
  destruct Hin as [Heq|Hin].
  - inversion Heq; subst. exact Hq.
  - unfold live in Hq.
    destruct (heap_lookup q (heap w)) as [sq|] eqn:Es; [|congruence].
    destruct (call_spec tz q e w sq Es) as [w1' [a [Hc [_ [_ [_ [_ [_ [_ Hm]]]]]]]]].
    rewrite Ec in Hc. inversion Hc; subst w1'.
    apply (same_masks_live_back w w1); [exact Hm|].
    apply (IH w1 w' H n p Hin).
Qed.

Lemma dispatch_Some_live (tz now : Z) (l : LEVELS) (m : string)
    (src cd : option string) (w w' : World) :
  dispatch tz now l m src cd w = Some w' -> registry_live (getInstance w).
Proof.
  unfold dispatch. intros H n p Hin.
  exact (notify_all_Some_live tz _ _ _ _ H n p Hin).
Qed.

(** X5: a log call that the debug gate lets through has a defined result
    exactly when every registered pointer, whatever its mask, is a live
    object: the loop dereferences them all. *)
Theorem X5_log_defined_iff_live (tz : Z) (dbg : bool) (now : Z) (l : LEVELS)
    (m : string) (src cd : option string) (w : World) :
  negb (LEVELS_eqb l DBG) || debugVisible dbg w = true ->
  ((exists w', log tz dbg now l m src cd w = Some w')
   <-> registry_live (getInstance w)).
Proof.
  intros Hgate. rewrite log_visible by assumption. split.
  - intros [w' H]. eapply dispatch_Some_live; eassumption.
  - intros Hlive.
    destruct (dispatch_spec tz now l m src cd w Hlive) as [w' [a [H _]]].
    now exists w'.
Qed.

Lemma absorb_levels (e : Event) (s : Stream) :
  levels (absorb e s) = levels s.
Proof. unfold absorb. destruct (derived s); reflexivity. Qed.

Lemma absorb_file_of (e : Event) (s : Stream) :
  file_of (absorb e s) = file_of s.
Proof.
  unfold absorb, file_of.
  destruct (derived s) eqn:E; simpl; rewrite ?E; reflexivity.
Qed.

Lemma iter_absorb_levels (e : Event) (k : nat) (s : Stream) :
  levels (Nat.iter k (absorb e) s) = levels s.
Proof.
  induction k as [|k IH]; simpl; [reflexivity|]. now rewrite absorb_levels.
Qed.

Lemma iter_absorb_file_of (e : Event) (k : nat) (s : Stream) :
  file_of (Nat.iter k (absorb e) s) = file_of s.
Proof.
  induction k as [|k IH]; simpl; [reflexivity|]. now rewrite absorb_file_of.
Qed.

(** The heap after a handler has run: the handling object has absorbed
    the event, the others are as before. *)
Lemma handle_heap (tz : Z) (q : ptr) (sq : Stream) (e : Event) (w : World) :
  heap_lookup q (heap w) = Some sq ->
  forall p,
    heap_lookup p (heap (handle tz q sq e w)) =
    if N.eqb p q then Some (absorb e sq) else heap_lookup p (heap w).
Proof.
  intros Hq p. unfold handle, absorb.
  destruct (derived sq) as [file| |events|e0] eqn:Ed.
  - destruct (fs_open_append file (files w)); simpl;
      destruct (N.eqb_spec p q); congruence.
  - simpl. destruct (N.eqb_spec p q); congruence.
  - simpl. rewrite heap_lookup_update, Hq. reflexivity.
  - simpl. rewrite heap_lookup_update, Hq. reflexivity.
Qed.

Lemma call_heap (tz : Z) (q : ptr) (sq : Stream) (e : Event) (w w1 : World) :
  heap_lookup q (heap w) = Some sq ->
  call tz q e w = Some w1 ->
  forall p,
    heap_lookup p (heap w1) =
    if accepts (levels sq) (level e) && N.eqb p q
    then Some (absorb e sq) else heap_lookup p (heap w).
Proof.
  intros Hq Hc p. unfold call in Hc. rewrite Hq in Hc.
  destruct (accepts (levels sq) (level e)); inversion Hc; subst w1; simpl andb.
  - apply (handle_heap tz q sq e
             (observe [Handled q e] (observe [Offered q e] w)) Hq).
  - reflexivity.
Qed.

(** The object at [p] after the loop: it has absorbed the event once for
    each entry that names it, if its mask has the level, and not at all
    otherwise. *)
Lemma notify_all_object (tz : Z) (e : Event) : forall entries w p s,
  (forall n q, In (n, q) entries -> live w q) ->
  heap_lookup p (heap w) = Some s ->
  exists w',
    notify_all tz entries e w = Some w' /\
    heap_lookup p (heap w') =
      Some (Nat.iter (if accepts (levels s) (level e)
                      then entries_naming p entries else 0%nat)
              (absorb e) s).
Proof.
  induction entries as [|[n0 q] rest IH]; intros w p s Hlive Hp.
  - exists w. split; [reflexivity|].
    unfold entries_naming. simpl. now destruct (accepts (levels s) (level e)).
  - assert (Hq : live w q) by (apply (Hlive n0); now left).
    unfold live in Hq.
    destruct (heap_lookup q (heap w)) as [sq|] eqn:Es; [|congruence].
    destruct (call_spec tz q e w sq Es)
      as [w1 [a [Hc [_ [_ [_ [_ [_ [_ Hm]]]]]]]]].
    pose proof (call_heap tz q sq e w w1 Es Hc p) as Hp1.
    assert (Hlive1 : forall n r, In (n, r) rest -> live w1 r).
    { intros n r Hr. apply (same_masks_live w); [exact Hm|].
      apply (Hlive n). now right. }
    simpl. rewrite Hc. unfold entries_naming. simpl filter.
    rewrite (N.eqb_sym q p).
    destruct (N.eqb_spec p q) as [->|Hne].
    + rewrite Hp in Es. inversion Es; subst sq.
      destruct (accepts (levels s) (level e)) eqn:Ea; simpl in Hp1.
      * destruct (IH w1 q (absorb e s) Hlive1 Hp1) as [w' [Hn Hw']].
        exists w'. split; [exact Hn|]. rewrite Hw'.
        rewrite absorb_levels, Ea. simpl List.length.
        now rewrite Nat.iter_succ_r.
      * rewrite Hp in Hp1.
        destruct (IH w1 q s Hlive1 Hp1) as [w' [Hn Hw']].
        exists w'. split; [exact Hn|]. rewrite Hw', Ea. reflexivity.
    + rewrite andb_false_r, Hp in Hp1.
      destruct (IH w1 p s Hlive1 Hp1) as [w' [Hn Hw']].
      exists w'. split; [exact Hn|]. exact Hw'.
Qed.

(** The same, for a whole log call. *)
Lemma dispatch_object (tz now : Z) (l : LEVELS) (m : string)
    (src cd : option string) (w : World) (p : ptr) (s : Stream) :
  registry_live (getInstance w) ->
  heap_lookup p (heap (getInstance w)) = Some s ->
  exists w',
    dispatch tz now l m src cd w = Some w' /\
    heap_lookup p (heap w') =
      Some (Nat.iter (if accepts (levels s) l
                      then entries_naming p (inst_streams (getInstance w))
                      else 0%nat)
              (absorb (Event_new now l m src cd None)) s).
Proof.
  intros Hlive Hp. unfold dispatch.
  apply (notify_all_object tz (Event_new now l m src cd None)
           (inst_streams (getInstance w))
           (observe [Constructed (Event_new now l m src cd None)]
              (getInstance w)) p s).
  - intros n q Hin. apply (Hlive n q Hin).
  - exact Hp.
Qed.

(** X6: a log call on an active registry changes neither the registry nor
    the debug switch, adds observations without removing any, and leaves
    every stream object in place with its mask and, for a file
    destination, its file name. *)
Theorem X6_log_leaves_configuration (tz : Z) (dbg : bool) (now : Z)
    (l : LEVELS) (m : string) (src cd : option string) (w w' : World) :
  instance w <> None ->
  log tz dbg now l m src cd w = Some w' ->
  instance w' = instance w
  /\ showDebug w' = showDebug w
  /\ (exists added, trace w' = trace w ++ added)
  /\ (forall q, heap_lookup q (heap w) = None ->
                heap_lookup q (heap w') = None)
  /\ (forall q s, heap_lookup q (heap w) = Some s ->
        exists s', heap_lookup q (heap w') = Some s' /\
                   levels s' = levels s /\ file_of s' = file_of s).
Proof.
  intros Hact Hlog. unfold log in Hlog.
  destruct (negb (LEVELS_eqb l DBG) || debugVisible dbg w).
  - pose proof (dispatch_Some_live _ _ _ _ _ _ _ _ Hlog) as Hlive.
    destruct (dispatch_spec tz now l m src cd w Hlive)
      as [w1 [added [Hd [Ht [_ [_ [_ [Hi [Hs Hm]]]]]]]]].
    rewrite Hlog in Hd. inversion Hd; subst w1.
    rewrite (getInstance_active w Hact) in *.
    split; [exact Hi|]. split; [exact Hs|]. split; [eauto|]. split.
    + intros q Hq. specialize (Hm q). rewrite Hq in Hm.
      destruct (heap_lookup q (heap w')); [discriminate|reflexivity].
    + intros q s Hq.
      destruct (dispatch_object tz now l m src cd w q s) as [w2 [Hd2 Hq2]];
        rewrite ?(getInstance_active w Hact); try assumption.
      rewrite Hlog in Hd2. inversion Hd2; subst w2.
      eexists. split; [exact Hq2|].
      split; [apply iter_absorb_levels | apply iter_absorb_file_of].
  - inversion Hlog; subst w'.
    split; [reflexivity|]. split; [reflexivity|].
    split; [exists []; now rewrite app_nil_r|]. split; [auto|].
    intros q s Hq. exists s. auto.
Qed.

(* ------------------------------------------------------------------ *)
(** ** The capturing destinations *)

Lemma iter_absorb_archive (e : Event) (evs : list Event) (s : Stream) :
  derived s = ArchiveStream evs ->
  forall k, derived (Nat.iter k (absorb e) s) = ArchiveStream (evs ++ repeat e k).
Proof.
  intros Hd. induction k as [|k IH]; simpl.
  - now rewrite app_nil_r.
  - unfold absorb at 1. rewrite IH. simpl. f_equal.
    rewrite <- app_assoc. f_equal. symmetry. apply repeat_cons.
Qed.

Lemma iter_absorb_test (e e0 : Event) (s : Stream) :
  derived s = TestStream e0 ->
  forall k, derived (Nat.iter k (absorb e) s)
            = TestStream (match k with O => e0 | S _ => e end).
Proof.
  intros Hd. destruct k as [|k]; simpl; [exact Hd|].
  assert (H : forall j, exists x, derived (Nat.iter j (absorb e) s) = TestStream x).
  { induction j as [|j [x IH]]; simpl; [eauto|].
    unfold absorb at 1. rewrite IH. simpl. eauto. }
  destruct (H k) as [x Hx]. unfold absorb at 1. now rewrite Hx.
Qed.

(** X7: an [ArchiveStream] keeps what it had and appends a copy of the
    event of a log call at the end, once for each registry entry that
    names it, when its mask has the level; otherwise its events are as
    before. *)
Theorem X7_archive_records (tz : Z) (dbg : bool) (now : Z) (L : LEVELS)
    (m : string) (src cd : option string) (w : World) (p : ptr) (s : Stream)
    (evs : list Event) :
  negb (LEVELS_eqb L DBG) || debugVisible dbg w = true ->
  registry_live (getInstance w) ->
  heap_lookup p (heap (getInstance w)) = Some s ->
  derived s = ArchiveStream evs ->
  exists w' s',
    log tz dbg now L m src cd w = Some w' /\
    heap_lookup p (heap w') = Some s' /\
    levels s' = levels s /\
    getEvents s' =
      evs ++ repeat (Event_new now L m src cd None)
               (if accepts (levels s) L
                then entries_naming p (inst_streams (getInstance w))
                else 0%nat).
Proof.
  intros Hgate Hlive Hp Hd. rewrite log_visible by assumption.
  destruct (dispatch_object tz now L m src cd w p s Hlive Hp) as [w' [Hw Hp']].
  eexists. eexists. split; [exact Hw|]. split; [exact Hp'|].
  split; [apply iter_absorb_levels|].
  unfold getEvents. now rewrite (iter_absorb_archive _ evs s Hd).
Qed.

(** X8: a [TestStream] holds the event of the log call when it is
    registered and its mask has the level, and otherwise still holds the
    event it held before. *)
Theorem X8_test_stream_holds (tz : Z) (dbg : bool) (now : Z) (L : LEVELS)
    (m : string) (src cd : option string) (w : World) (p : ptr) (s : Stream)
    (e0 : Event) :
  negb (LEVELS_eqb L DBG) || debugVisible dbg w = true ->
  registry_live (getInstance w) ->
  heap_lookup p (heap (getInstance w)) = Some s ->
  derived s = TestStream e0 ->
  exists w' s',
    log tz dbg now L m src cd w = Some w' /\
    heap_lookup p (heap w') = Some s' /\
    levels s' = levels s /\
    held s' =
      Some (if accepts (levels s) L
               && negb (Nat.eqb (entries_naming p (inst_streams (getInstance w))) 0)
            then Event_new now L m src cd None else e0).
Proof.
  intros Hgate Hlive Hp Hd. rewrite log_visible by assumption.
  destruct (dispatch_object tz now L m src cd w p s Hlive Hp) as [w' [Hw Hp']].
  eexists. eexists. split; [exact Hw|]. split; [exact Hp'|].
  split; [apply iter_absorb_levels|].
  unfold held. rewrite (iter_absorb_test _ e0 s Hd).
  destruct (accepts (levels s) L); [|reflexivity].
  now destruct (entries_naming p (inst_streams (getInstance w))).
Qed.

(** X9: what the tests "Output Formatting" and "Optional Formatting"
    check, for every level, message, source and code: after a log call
    that a registered test stream accepts, [getMsg] is the message and
    [getEventString] is the level symbol, then [getTime], then "[code] " if
    a code was given, the message, and " (from source)" if a source was
    given. *)
Theorem X9_test_stream_formatting (tz : Z) (dbg : bool) (now : Z)
    (L : LEVELS) (m : string) (src cd : option string) (w : World) (p : ptr)
    (s : Stream) (e0 : Event) :
  negb (LEVELS_eqb L DBG) || debugVisible dbg w = true ->
  registry_live (getInstance w) ->
  heap_lookup p (heap (getInstance w)) = Some s ->
  derived s = TestStream e0 ->
  accepts (levels s) L = true ->
  (0 < entries_naming p (inst_streams (getInstance w)))%nat ->
  exists w' s' t,
    log tz dbg now L m src cd w = Some w' /\
    heap_lookup p (heap w') = Some s' /\
    getMsg s' = Some m /\
    getTime tz s' = Some t /\
    getEventString tz s' =
      Some (levelSymbol L ++ t
            ++ (if String.eqb (default_arg "" cd) "" then ""
                else "[" ++ default_arg "" cd ++ "] ")
            ++ m
            ++ (if String.eqb (default_arg "" src) "" then ""
                else " (from " ++ default_arg "" src ++ ")"))%string.
Proof.
  intros Hgate Hlive Hp Hd Hacc Hreg. rewrite log_visible by assumption.
  destruct (dispatch_object tz now L m src cd w p s Hlive Hp) as [w' [Hw Hp']].
  rewrite Hacc in Hp'.
  set (e := Event_new now L m src cd None) in *.
  assert (Hheld : held (Nat.iter (entries_naming p (inst_streams (getInstance w)))
                          (absorb e) s) = Some e).
  { unfold held. rewrite (iter_absorb_test _ e0 s Hd).
    destruct (entries_naming p (inst_streams (getInstance w))); [lia|reflexivity]. }
  eexists. eexists. eexists. split; [exact Hw|]. split; [exact Hp'|].
  unfold getMsg, getTime, getEventString. rewrite Hheld. simpl option_map.
  split; [reflexivity|]. split; [reflexivity|].
  now rewrite toString_segments.
Qed.

(* ------------------------------------------------------------------ *)
(** ** The writing destinations *)

Lemma getInstance_io (w : World) :
  console (getInstance w) = console w /\ files (getInstance w) = files w.
Proof. unfold getInstance. destruct (instance w); split; reflexivity. Qed.

(** The contents a file destination leaves in its file. *)
Lemma file_handle_content (tz : Z) (p : ptr) (s : Stream) (file : string)
    (e : Event) (w : World) (content : string) :
  derived s = TextFileStream file ->
  fs_open_append file (files w) = Some content ->
  fs_open_append file (files (handle tz p s e w))
    = Some (content ++ toString tz e)%string
  /\ (forall other, other <> file ->
        fs_lookup other (files (handle tz p s e w))
        = fs_lookup other (files w))
  /\ heap (handle tz p s e w) = heap w
  /\ console (handle tz p s e w) = console w.
Proof.
  intros Hd Hopen. unfold handle. rewrite Hd, Hopen. simpl.
  split; [|split; [|split; reflexivity]].
  - unfold fs_open_append. now rewrite fs_lookup_store_same.
  - intros other Hne. now apply fs_lookup_store_other.
Qed.

Lemma file_handle_locked (tz : Z) (p : ptr) (s : Stream) (file : string)
    (e : Event) (w : World) :
  derived s = TextFileStream file ->
  fs_open_append file (files w) = None ->
  files (handle tz p s e w) = files w
  /\ heap (handle tz p s e w) = heap w
  /\ console (handle tz p s e w) = console w.
Proof.
  intros Hd Hopen. unfold handle. rewrite Hd, Hopen. repeat split.
Qed.

(** X10: logging with no setup.  On a registry not yet created, a log
    call that the gate lets through appends the rendered event to the
    console output and to the file "log.txt" (created if missing), with no
    line terminator, and touches no other file; if "log.txt" does not
    open, the console still receives the text and the files are as
    before. *)
Theorem X10_zero_setup_output (tz : Z) (dbg : bool) (now : Z) (L : LEVELS)
    (m : string) (src cd : option string) (w : World) :
  instance w = None ->
  negb (LEVELS_eqb L DBG) || debugVisible dbg w = true ->
  exists w',
    log tz dbg now L m src cd w = Some w' /\
    console w' = (console w ++ toString tz (Event_new now L m src cd None))%string /\
    (forall content, fs_open_append "log.txt" (files w) = Some content ->
       fs_open_append "log.txt" (files w')
         = Some (content ++ toString tz (Event_new now L m src cd None))%string
       /\ (forall other, other <> "log.txt"%string ->
             fs_lookup other (files w') = fs_lookup other (files w))) /\
    (fs_open_append "log.txt" (files w) = None -> files w' = files w).
Proof.
  intros E Hgate. rewrite log_visible by assumption.
  destruct (getInstance_seed w E) as [p1 [p2 [Hs [H1 [H2 Hne]]]]].
  destruct (getInstance_io w) as [Hc Hf].
  unfold dispatch.
  set (e := Event_new now L m src cd None).
  remember (getInstance w) as w0 eqn:Hw0.
  change (inst_streams (observe [Constructed e] w0)) with (inst_streams w0).
  rewrite Hs. cbn [notify_all].
  unfold call at 1. change (heap (observe [Constructed e] w0)) with (heap w0).
  rewrite H2. cbn [levels]. rewrite accepts_ALL_LEVELS.
  set (wc := handle tz p2 _ e _).
  assert (Hwc : heap wc = heap w0 /\ files wc = files w0 /\
                console wc = (console w0 ++ toString tz e)%string)
    by (repeat split).
  destruct Hwc as [Hh [Hfc Hcc]]. clearbody wc.
  unfold call. rewrite Hh, H1. cbn [levels]. rewrite accepts_ALL_LEVELS.
  set (wo := observe [Handled p1 e] (observe [Offered p1 e] wc)).
  assert (Hwo : files wo = files w /\
                console wo = (console w ++ toString tz e)%string).
  { subst wo. unfold observe. cbn [files console].
    rewrite Hfc, Hcc, Hf, Hc. now split. }
  destruct Hwo as [Hfo Hco]. clearbody wo.
  set (sf := TextFileStream_new (Some "log.txt"%string)).
  exists (handle tz p1 sf e wo). split; [reflexivity|]. split; [|split].
  - destruct (fs_open_append "log.txt" (files wo)) as [content|] eqn:Eo.
    + destruct (file_handle_content tz p1 sf "log.txt" e wo content
                  eq_refl Eo) as [_ [_ [_ Hk]]].
      now rewrite Hk.
    + destruct (file_handle_locked tz p1 sf "log.txt" e wo eq_refl Eo)
        as [_ [_ Hk]].
      now rewrite Hk.
  - intros content Hopen. rewrite <- Hfo in Hopen.
    destruct (file_handle_content tz p1 sf "log.txt" e wo content
                eq_refl Hopen) as [Hk [Ho _]].
    split; [exact Hk|]. intros other Hother. rewrite (Ho other Hother).
    now rewrite Hfo.
  - intros Hopen. rewrite <- Hfo in Hopen.
    destruct (file_handle_locked tz p1 sf "log.txt" e wo eq_refl Hopen)
      as [Hk _].
    now rewrite Hk.
Qed.

(** The text of several events in a row. *)
Lemma handle_each_file (tz : Z) (p : ptr) (s : Stream) (file : string) :
  derived s = TextFileStream file ->
  forall events w content,
    heap_lookup p (heap w) = Some s ->
    fs_open_append file (files w) = Some content ->
    fs_open_append file (files (handle_each tz p events w))
      = Some (content ++ fold_right String.append "" (map (toString tz) events))%string
    /\ (forall other, other <> file ->
          fs_lookup other (files (handle_each tz p events w))
          = fs_lookup other (files w)).
Proof.
  intros Hd. induction events as [|e rest IH]; intros w content Hp Hopen.
  - simpl. rewrite append_nil_r. auto.
  - simpl. rewrite Hp.
    destruct (file_handle_content tz p s file e w content Hd Hopen)
      as [Hk [Ho [Hh _]]].
    destruct (IH (handle tz p s e w) _ ltac:(now rewrite Hh) Hk) as [Hk' Ho'].
    split.
    + rewrite Hk'. now rewrite append_assoc.
    + intros other Hother. rewrite (Ho' other Hother). now apply Ho.
Qed.

(** X11: events handled one after the other by a file destination whose
    file opens end up in the file in that order, after what the file held,
    back to back with nothing between them, and no other file changes. *)
Theorem X11_file_appends_in_order (tz : Z) (p : ptr) (s : Stream)
    (file : string) (events : list Event) (w : World) (content : string) :
  heap_lookup p (heap w) = Some s ->
  derived s = TextFileStream file ->
  fs_open_append file (files w) = Some content ->
  fs_open_append file (files (handle_each tz p events w))
    = Some (content ++ fold_right String.append "" (map (toString tz) events))%string
  /\ (forall other, other <> file ->
        fs_lookup other (files (handle_each tz p events w))
        = fs_lookup other (files w)).
Proof.
  intros Hp Hd Hopen. now apply (handle_each_file tz p s file Hd).
Qed.

(** X12: a file destination whose file does not open drops every event:
    however many it handles, the files, the console and the heap are as
    before. *)
Theorem X12_file_locked_drops (tz : Z) (p : ptr) (s : Stream)
    (file : string) (events : list Event) (w : World) :
  heap_lookup p (heap w) = Some s ->
  derived s = TextFileStream file ->
  fs_open_append file (files w) = None ->
  files (handle_each tz p events w) = files w
  /\ console (handle_each tz p events w) = console w
  /\ heap (handle_each tz p events w) = heap w.
Proof.
  intros Hp Hd. revert w Hp.
  induction events as [|e rest IH]; intros w Hp Hopen; simpl; [auto|].
  rewrite Hp.
  destruct (file_handle_locked tz p s file e w Hd Hopen) as [Hf [Hh Hc]].
  destruct (IH (handle tz p s e w)) as [Hf' [Hc' Hh']];
    try (rewrite ?Hh, ?Hf; assumption).
  repeat split; congruence.
Qed.

(** X13: events handled one after the other by a console destination
    reach the console in that order, back to back, and the files are not
    touched. *)
Theorem X13_console_writes_in_order (tz : Z) (p : ptr) (s : Stream)
    (events : list Event) (w : World) :
  heap_lookup p (heap w) = Some s ->
  derived s = ConsoleStream ->
  console (handle_each tz p events w)
    = (console w ++ fold_right String.append "" (map (toString tz) events))%string
  /\ files (handle_each tz p events w) = files w.
Proof.
  intros Hp Hd. revert w Hp.
  induction events as [|e rest IH]; intros w Hp; simpl.
  - rewrite append_nil_r. auto.
  - rewrite Hp.
    assert (Hh : heap (handle tz p s e w) = heap w /\
                 console (handle tz p s e w) = (console w ++ toString tz e)%string /\
                 files (handle tz p s e w) = files w)
      by (unfold handle; rewrite Hd; repeat split).
    destruct Hh as [Hh [Hc Hf]].
    destruct (IH (handle tz p s e w)) as [Hc' Hf']; [now rewrite Hh|].
    split; [|congruence]. rewrite Hc', Hc. now rewrite append_assoc.
Qed.

(** X14: [setFilename] redirects a file destination and keeps its mask:
    the next event goes to the new file, after what that file held, and
    every other file, the former one included, is left as it was. *)
Theorem X14_setFilename_redirects (tz : Z) (p : ptr) (s : Stream)
    (old_file new_file : string) (e : Event) (w : World) (content : string) :
  derived s = TextFileStream old_file ->
  fs_open_append new_file (files w) = Some content ->
  levels (setFilename new_file s) = levels s
  /\ file_of (setFilename new_file s) = Some new_file
  /\ fs_open_append new_file
       (files (handle tz p (setFilename new_file s) e w))
     = Some (content ++ toString tz e)%string
  /\ (forall other, other <> new_file ->
        fs_lookup other (files (handle tz p (setFilename new_file s) e w))
        = fs_lookup other (files w)).
Proof.
  intros Hd Hopen.
  assert (Hd' : derived (setFilename new_file s) = TextFileStream new_file)
    by (unfold setFilename; now rewrite Hd).
  split; [unfold setFilename; now rewrite Hd|].
  split; [unfold file_of; now rewrite Hd'|].
  destruct (file_handle_content tz p _ new_file e w content Hd' Hopen)
    as [Hk [Ho _]].
  split; assumption.
Qed.

(* ------------------------------------------------------------------ *)
(** ** More on the registry operations *)

(** X15: [removeStream] on a name that is not registered returns
    [nullptr] and changes nothing beyond bringing the registry up. *)
Theorem X15_remove_unknown (name : string) (w : World) :
  map_find name (inst_streams (getInstance w)) = None ->
  removeStream name w = (nullptr, getInstance w).
Proof.
  intros H. unfold removeStream, getStream.
  rewrite getInstance_idem, H. reflexivity.
Qed.

Lemma removeStream_streams (name : string) (w : World) :
  inst_streams (snd (removeStream name w)) =
  match map_find name (inst_streams (getInstance w)) with
  | Some p =>
      if N.eqb p nullptr then inst_streams (getInstance w)
      else map_erase name (inst_streams (getInstance w))
  | None => inst_streams (getInstance w)
  end.
Proof.
  rewrite removeStream_world.
  destruct (map_find name (inst_streams (getInstance w))) as [p|];
    [|reflexivity].
  now destruct (N.eqb p nullptr).
Qed.

Lemma removeStream_active (name : string) (w : World) :
  instance (snd (removeStream name w)) <> None.
Proof.
  rewrite removeStream_world.
  destruct (map_find name (inst_streams (getInstance w))) as [p|].
  - destruct (N.eqb p nullptr); [apply getInstance_instance|].
    simpl. discriminate.
  - apply getInstance_instance.
Qed.

Lemma removeStream_heap (name : string) (w : World) :
  heap (snd (removeStream name w)) = heap (getInstance w).
Proof.
  rewrite removeStream_world.
  destruct (map_find name (inst_streams (getInstance w))) as [p|];
    [|reflexivity].
  now destruct (N.eqb p nullptr).
Qed.

(** X16: [removeStream] only unregisters: the stream objects are all
    still there, unchanged, and every other name is looked up as before. *)
Theorem X16_remove_only_unregisters (name other : string) (w : World) :
  heap (snd (removeStream name w)) = heap (getInstance w)
  /\ (other <> name ->
      fst (getStream other (snd (removeStream name w)))
      = fst (getStream other w)).
Proof.
  split.
  - apply removeStream_heap.
  - intros Hne. rewrite !getStream_result.
    rewrite (getInstance_active _ (removeStream_active name w)).
    rewrite removeStream_streams.
    destruct (map_find name (inst_streams (getInstance w))) as [p|];
      [|reflexivity].
    destruct (N.eqb p nullptr); [reflexivity|].
    now rewrite map_find_erase_other.
Qed.

Lemma map_erase_absent (n : string) (m : registry) :
  ~ In n (names m) -> map_erase n m = m.
Proof.
  unfold names. induction m as [|[k q] m IH]; simpl; [reflexivity|].
  intros H. destruct (String.eqb_spec n k) as [->|Hne].
  - exfalso. auto.
  - f_equal. auto.
Qed.

Lemma map_erase_assign (n : string) (d : ptr) (m : registry) :
  ~ In n (names m) -> map_erase n (map_assign n d m) = m.
Proof.
  unfold names. induction m as [|[k q] m IH]; simpl; intros H.
  - now rewrite String.eqb_refl.
  - destruct (String.compare n k) eqn:Hc.
    + apply compare_eq in Hc. subst k. exfalso. auto.
    + simpl. rewrite String.eqb_refl.
      destruct (String.eqb_spec n k) as [->|Hne]; [exfalso; auto|].
      f_equal. apply map_erase_absent. unfold names. auto.
    + simpl. pose proof (compare_gt_neq _ _ Hc) as Hne.
      apply String.eqb_neq in Hne. rewrite Hne. f_equal. auto.
Qed.

(** X17: registering a stream under a name that is not in use and then
    removing that name gives back the stream and leaves the registry as it
    was. *)
Theorem X17_add_remove_restores (name : string) (d : ptr) (w : World) :
  ~ In name (names (inst_streams (getInstance w))) ->
  d <> nullptr ->
  fst (removeStream name (addStream name d w)) = d
  /\ inst_streams (snd (removeStream name (addStream name d w)))
     = inst_streams (getInstance w).
Proof.
  intros Hfree Hd. split.
  - rewrite removeStream_result. apply getStream_after_add.
  - rewrite removeStream_streams.
    rewrite (getInstance_active _ (addStream_instance name d w)).
    rewrite addStream_streams, map_find_assign_same.
    apply N.eqb_neq in Hd. rewrite Hd. now apply map_erase_assign.
Qed.

Lemma heap_lookup_remove (p q : ptr) (h : list (ptr * Stream)) :
  heap_lookup q (heap_remove p h) =
  if N.eqb q p then None else heap_lookup q h.
Proof.
  induction h as [|[r old] h IH]; simpl.
  - now destruct (N.eqb q p).
  - destruct (N.eqb_spec p r) as [->|Hpr]; simpl.
    + rewrite IH. destruct (N.eqb_spec q r); reflexivity.
    + rewrite IH. destruct (N.eqb_spec q r) as [->|Hqr].
      * destruct (N.eqb_spec r p); [congruence|reflexivity].
      * reflexivity.
Qed.

Lemma null_free_new (s : Stream) (w : World) :
  null_free w -> null_free (snd (new s w)).
Proof.
  unfold null_free, new. cbn [snd heap with_heap]. intros H.
  rewrite heap_lookup_app, H. cbn [heap_lookup].
  destruct (N.eqb_spec nullptr (fresh (heap w))) as [E|]; [|reflexivity].
  exfalso. apply (fresh_not_null (heap w)). now symmetry.
Qed.

Lemma null_free_getInstance (w : World) :
  null_free w -> null_free (getInstance w).
Proof.
  intros H. destruct (instance w) eqn:E.
  - rewrite getInstance_active; congruence.
  - rewrite (getInstance_first w E). cbv zeta.
    apply (null_free_new ConsoleStream_new
             (streams_assign "defaultTextFile" (fresh (heap w))
                (with_heap
                   (heap w ++ [(fresh (heap w),
                                TextFileStream_new (Some "log.txt"%string))])
                   (with_instance (Some {| streams := [] |}) w)))).
    apply (null_free_new (TextFileStream_new (Some "log.txt"%string))
             (with_instance (Some {| streams := [] |}) w)).
    exact H.
Qed.

(** No reachable state has an object at [nullptr]. *)
Lemma null_free_reachable (tz : Z) (dbg : bool) (w : World) :
  reachable tz dbg w -> null_free w.
Proof.
  induction 1 as [fs | s w _ IH | p w _ IH | p mask s w _ IH Hp
                 | p filename s w _ IH Hp | name w _ IH | name stream w _ IH
                 | name w _ IH | show w _ IH
                 | now lvl m src cd w w' _ IH Hlog].
  - reflexivity.
  - now apply null_free_new.
  - unfold null_free, delete. simpl. rewrite heap_lookup_remove.
    now destruct (N.eqb nullptr p).
  - unfold null_free. simpl. rewrite heap_lookup_update.
    destruct (N.eqb_spec nullptr p) as [<-|]; [now rewrite IH|exact IH].
  - unfold null_free. simpl. rewrite heap_lookup_update.
    destruct (N.eqb_spec nullptr p) as [<-|]; [now rewrite IH|exact IH].
  - rewrite getStream_world. now apply null_free_getInstance.
  - apply null_free_getInstance in IH. exact IH.
  - apply null_free_getInstance in IH. unfold null_free in *.
    now rewrite removeStream_heap.
  - exact IH.
  - unfold log in Hlog.
    destruct (negb (LEVELS_eqb lvl DBG) || debugVisible dbg w).
    + pose proof (dispatch_Some_live _ _ _ _ _ _ _ _ Hlog) as Hlive.
      destruct (dispatch_spec tz now lvl m src cd w Hlive)
        as [w1 [added [Hd [_ [_ [_ [_ [_ [_ Hm]]]]]]]]].
      rewrite Hlog in Hd. inversion Hd; subst w1.
      apply null_free_getInstance in IH. unfold null_free in *.
      specialize (Hm nullptr). rewrite IH in Hm.
      destruct (heap_lookup nullptr (heap w')); [discriminate|reflexivity].
    + inversion Hlog; subst. exact IH.
Qed.

Lemma In_names_assign (n : string) (d : ptr) (m : registry) :
  In n (names (map_assign n d m)).
Proof.
  unfold names. apply in_map_iff. exists (n, d). split; [reflexivity|].
  apply map_find_In, map_find_assign_same.
Qed.

(** A log call on a registry with an entry that is not a live object has
    no defined result. *)
Lemma log_dead_entry (tz : Z) (dbg : bool) (now : Z) (l : LEVELS)
    (m : string) (src cd : option string) (w : World) (n : string) (p : ptr) :
  negb (LEVELS_eqb l DBG) || debugVisible dbg w = true ->
  In (n, p) (inst_streams (getInstance w)) ->
  heap_lookup p (heap (getInstance w)) = None ->
  log tz dbg now l m src cd w = None.
Proof.
  intros Hgate Hin Hdead. rewrite log_visible by assumption.
  destruct (dispatch tz now l m src cd w) as [w'|] eqn:E; [|reflexivity].
  exfalso. apply (dispatch_Some_live _ _ _ _ _ _ _ _ E n p Hin). exact Hdead.
Qed.

(** X18: a null pointer can be registered, and then it stays: after
    [addStream(name, nullptr)], [removeStream(name)] returns [nullptr]
    without erasing the entry, the name is still registered, and no log
    call that the gate lets through has a defined result. *)
Theorem X18_null_entry_sticks (tz : Z) (dbg : bool) (now : Z) (l : LEVELS)
    (m : string) (src cd : option string) (name : string) (w : World) :
  reachable tz dbg w ->
  fst (removeStream name (addStream name nullptr w)) = nullptr
  /\ snd (removeStream name (addStream name nullptr w))
     = addStream name nullptr w
  /\ In name (names (inst_streams (addStream name nullptr w)))
  /\ (negb (LEVELS_eqb l DBG)
      || debugVisible dbg (addStream name nullptr w) = true ->
      log tz dbg now l m src cd (addStream name nullptr w) = None
      /\ log tz dbg now l m src cd
           (snd (removeStream name (addStream name nullptr w))) = None).
Proof.
  intros Hreach.
  assert (Hact : getInstance (addStream name nullptr w)
                 = addStream name nullptr w)
    by (apply getInstance_active, addStream_instance).
  assert (Hsame : snd (removeStream name (addStream name nullptr w))
                  = addStream name nullptr w).
  { rewrite removeStream_world, Hact, addStream_streams.
    now rewrite map_find_assign_same. }
  split; [rewrite removeStream_result; apply getStream_after_add|].
  split; [exact Hsame|]. split.
  - rewrite addStream_streams. apply In_names_assign.
  - intros Hgate. rewrite Hsame.
    assert (H : log tz dbg now l m src cd (addStream name nullptr w) = None).
    { apply (log_dead_entry tz dbg now l m src cd _ name nullptr Hgate).
      - rewrite Hact, addStream_streams.
        apply map_find_In, map_find_assign_same.
      - rewrite Hact.
        apply (null_free_reachable tz dbg).
        now apply reach_addStream. }
    split; exact H.
Qed.

(** X19: deleting a stream that is still registered leaves a dangling
    entry: on an active registry, after [delete p] for a registered [p], no
    log call that the gate lets through has a defined result. *)
Theorem X19_delete_while_registered (tz : Z) (dbg : bool) (now : Z)
    (l : LEVELS) (m : string) (src cd : option string) (name : string)
    (p : ptr) (w : World) :
  instance w <> None ->
  In (name, p) (inst_streams w) ->
  negb (LEVELS_eqb l DBG) || debugVisible dbg w = true ->
  log tz dbg now l m src cd (delete p w) = None.
Proof.
  intros Hact Hin Hgate.
  assert (Hact' : getInstance (delete p w) = delete p w)
    by (apply getInstance_active; exact Hact).
  apply (log_dead_entry tz dbg now l m src cd _ name p).
  - exact Hgate.
  - rewrite Hact'. exact Hin.
  - rewrite Hact'. unfold delete. cbn [heap with_heap].
    rewrite heap_lookup_remove. now rewrite N.eqb_refl.
Qed.

Lemma In_map_erase_neq (n k : string) (q : ptr) (m : registry) :
  In (n, q) (map_erase k m) -> n <> k.
Proof.
  induction m as [|[k0 v] m IH]; simpl; [contradiction|].
  destruct (String.eqb_spec k k0) as [->|Hne]; [exact IH|].
  intros [H|H]; [|auto]. inversion H; subst. congruence.
Qed.

(** X20: unregistering before deleting, as "Streams Management" does
    with [Log::removeStream("Target")] and then [delete t1] through the
    [TestStream*], leaves no dangling entry: when every registered pointer
    is live and the stream found under the name is registered under that
    name only, unregistering it and then deleting it leaves every
    registered pointer live. *)
Theorem X20_remove_then_delete (name : string) (p : ptr) (w : World) :
  instance w <> None ->
  null_free w ->
  registry_live w ->
  map_find name (inst_streams w) = Some p ->
  (forall n, In (n, p) (inst_streams w) -> n = name) ->
  fst (removeStream name w) = p
  /\ registry_live (delete p (snd (removeStream name w))).
Proof.
  intros Hact Hnull Hlive Hfind Honly.
  pose proof (getInstance_active w Hact) as Hw.
  assert (Hp : p <> nullptr).
  { intros ->. apply (Hlive name nullptr); [now apply map_find_In|exact Hnull]. }
  split.
  - rewrite removeStream_result, getStream_result, Hw, Hfind. reflexivity.
  - intros n q Hin. unfold live, delete. cbn [heap with_heap].
    rewrite removeStream_heap, heap_lookup_remove, Hw.
    unfold delete in Hin.
    change (In (n, q) (inst_streams (snd (removeStream name w)))) in Hin.
    rewrite removeStream_streams, Hw, Hfind in Hin.
    apply N.eqb_neq in Hp. rewrite Hp in Hin.
    pose proof (In_map_erase_neq _ _ _ _ Hin) as Hn.
    apply In_map_erase in Hin.
    destruct (N.eqb_spec q p) as [->|Hqp].
    + exfalso. apply Hn. now apply Honly.
    + apply (Hlive n q Hin).
Qed.

(* ------------------------------------------------------------------ *)
(** ** The registry as a map *)

Lemma ordered_tail_absent (k : string) (v : ptr) (m : registry) :
  ordered ((k, v) :: m) -> ~ In k (names m).
Proof.
  intros H. apply ordered_NoDup in H. unfold names in *. simpl in H.
  now inversion H.
Qed.

Lemma ordered_below_head (k k' : string) (v : ptr) (m : registry) :
  ordered ((k, v) :: m) -> String.compare k' k = Lt ->
  map_find k' ((k, v) :: m) = None.
Proof.
  intros H Hlt. apply map_find_None. unfold names. simpl. intros [Heq|Hin].
  - subst k'. rewrite compare_refl in Hlt. discriminate.
  - apply in_map_iff in Hin. destruct Hin as [[k1 v1] [Hk Hin]].
    simpl in Hk. subst k1.
    inversion H as [|? ? _ Hall]; subst. rewrite Forall_forall in Hall.
    specialize (Hall _ Hin). unfold key_lt in Hall. simpl in Hall.
    pose proof (compare_lt_trans _ _ _ Hlt Hall) as Hnn.
    rewrite compare_refl in Hnn. discriminate.
Qed.

(** Two ordered registries that answer every lookup alike are the same
    list. *)
Lemma ordered_ext : forall m1 m2 : registry,
  ordered m1 -> ordered m2 ->
  (forall k, map_find k m1 = map_find k m2) -> m1 = m2.
Proof.
  induction m1 as [|[k1 v1] t1 IH]; intros [|[k2 v2] t2] H1 H2 Hf.
  - reflexivity.
  - specialize (Hf k2). simpl in Hf. rewrite String.eqb_refl in Hf.
    discriminate.
  - specialize (Hf k1). simpl in Hf. rewrite String.eqb_refl in Hf.
    discriminate.
  - destruct (String.compare k1 k2) eqn:Hc.
    + apply compare_eq in Hc. subst k2.
      pose proof (Hf k1) as Hh. simpl in Hh. rewrite String.eqb_refl in Hh.
      inversion Hh; subst v2. f_equal.
      apply IH.
      * now inversion H1.
      * now inversion H2.
      * intros k. destruct (String.eqb_spec k k1) as [->|Hne].
        -- rewrite !map_find_None; [reflexivity| |];
             eapply ordered_tail_absent; eassumption.
        -- specialize (Hf k). simpl in Hf.
           apply String.eqb_neq in Hne. now rewrite Hne in Hf.
    + exfalso. pose proof (Hf k1) as Hh.
      rewrite (ordered_below_head k2 k1 v2 t2 H2 Hc) in Hh.
      simpl in Hh. rewrite String.eqb_refl in Hh. discriminate.
    + exfalso. apply compare_gt_lt in Hc. pose proof (Hf k2) as Hh.
      rewrite (ordered_below_head k1 k2 v1 t1 H1 Hc) in Hh.
      simpl in Hh. rewrite String.eqb_refl in Hh. discriminate.
Qed.

Lemma addStream_twice (a b : string) (p q : ptr) (w : World) :
  inst_streams (addStream a p (addStream b q w)) =
  map_assign a p (map_assign b q (inst_streams (getInstance w))).
Proof.
  rewrite addStream_streams.
  rewrite (getInstance_active _ (addStream_instance b q w)).
  now rewrite addStream_streams.
Qed.

(** X21: the registry does not remember the order of registrations: in a
    reachable state, registering two different names in either order
    gives the same registry, and registering the same name twice gives
    the registry of the second registration alone. *)
Theorem X21_registration_order (tz : Z) (dbg : bool) (a b : string)
    (p q : ptr) (w : World) :
  reachable tz dbg w ->
  (a <> b ->
   inst_streams (addStream a p (addStream b q w))
   = inst_streams (addStream b q (addStream a p w)))
  /\ inst_streams (addStream a p (addStream a q w))
     = inst_streams (addStream a p w).
Proof.
  intros Hreach.
  pose proof (invariant_getInstance w (invariant_reachable _ _ _ Hreach))
    as [Ho _].
  split.
  - intros Hab. rewrite !addStream_twice.
    apply ordered_ext; try (now repeat apply ordered_map_assign).
    intros k.
    destruct (String.eqb_spec k a) as [->|Hka].
    + rewrite map_find_assign_same, map_find_assign_other by assumption.
      now rewrite map_find_assign_same.
    + rewrite (map_find_assign_other a k) by assumption.
      destruct (String.eqb_spec k b) as [->|Hkb].
      * now rewrite !map_find_assign_same.
      * now rewrite !map_find_assign_other by assumption.
  - rewrite addStream_twice, addStream_streams.
    apply ordered_ext; try (now repeat apply ordered_map_assign).
    intros k.
    destruct (String.eqb_spec k a) as [->|Hka].
    + now rewrite !map_find_assign_same.
    + now rewrite !map_find_assign_other by assumption.
Qed.

(* ------------------------------------------------------------------ *)
(** ** The convenience calls *)

Lemma constructed_getInstance (w : World) :
  constructed (trace (getInstance w)) = constructed (trace w).
Proof.
  unfold getInstance. destruct (instance w); [reflexivity|].
  simpl. rewrite !constructed_app. simpl. now rewrite !app_nil_r.
Qed.

(** Each log call constructs one event if the gate lets it through, and
    none if not. *)
Lemma log_constructs (tz : Z) (dbg : bool) (now : Z) (l : LEVELS)
    (m : string) (src cd : option string) (w w' : World) :
  log tz dbg now l m src cd w = Some w' ->
  constructed (trace w') =
  constructed (trace w)
  ++ (if negb (LEVELS_eqb l DBG) || debugVisible dbg w
      then [Event_new now l m src cd None] else []).
Proof.
  intros Hlog. unfold log in Hlog.
  destruct (negb (LEVELS_eqb l DBG) || debugVisible dbg w).
  - pose proof (dispatch_Some_live _ _ _ _ _ _ _ _ Hlog) as Hlive.
    destruct (dispatch_spec tz now l m src cd w Hlive)
      as [w1 [added [Hd [Ht [_ [_ [Hc _]]]]]]].
    rewrite Hlog in Hd. inversion Hd; subst w1.
    rewrite Ht, constructed_app. simpl. rewrite Hc.
    now rewrite constructed_getInstance.
  - inversion Hlog; subst. now rewrite app_nil_r.
Qed.

(** X22: [info], [warning], [error] and [critical] each construct exactly
    one event, of their own level, stamped with the current time and
    carrying the message, with source and code empty when left out;
    [debug] does the same when DBG is visible and constructs nothing when
    it is not. *)
Theorem X22_convenience_calls (tz : Z) (dbg : bool) (now : Z) (m : string)
    (src cd : option string) (w w' : World) :
  let made l :=
    {| timestamp := now; level := l; msg := m;
       source := default_arg ""%string src;
       code := default_arg ""%string cd |} in
  (info tz dbg now m src cd w = Some w' ->
   constructed (trace w') = constructed (trace w) ++ [made INFO])
  /\ (warning tz dbg now m src cd w = Some w' ->
      constructed (trace w') = constructed (trace w) ++ [made WARNING])
  /\ (error tz dbg now m src cd w = Some w' ->
      constructed (trace w') = constructed (trace w) ++ [made ERR])
  /\ (critical tz dbg now m src cd w = Some w' ->
      constructed (trace w') = constructed (trace w) ++ [made CRITICAL])
  /\ (debug tz dbg now m src cd w = Some w' ->
      constructed (trace w') =
      constructed (trace w)
      ++ (if debugVisible dbg w then [made DBG] else [])).
Proof.
  intros made.
  repeat split; intros H; apply log_constructs in H; exact H.
Qed.

(* ------------------------------------------------------------------ *)
(** ** Without destinations *)

Lemma getInstance_seed_ptrs (w : World) :
  instance w = None ->
  exists p1 p2,
    inst_streams (getInstance w)
      = [("defaultConsole"%string, p2); ("defaultTextFile"%string, p1)] /\
    p1 <> nullptr /\ p2 <> nullptr.
Proof.
  intros E. rewrite (getInstance_first w E). cbv zeta.
  eexists. eexists. split; [reflexivity|].
  split; apply fresh_not_null.
Qed.

(** X23: the defaults can be removed, and logging then reaches nothing:
    once "defaultTextFile" and "defaultConsole" are removed from a newly
    created registry the registry is empty, and a log call that the gate
    lets through constructs its event and changes neither the files, nor
    the console, nor the heap. *)
Theorem X23_silent_without_destinations (tz : Z) (dbg : bool) (now : Z)
    (l : LEVELS) (m : string) (src cd : option string) (w : World) :
  instance w = None ->
  let w2 := snd (removeStream "defaultConsole"
                   (snd (removeStream "defaultTextFile" w))) in
  inst_streams w2 = []
  /\ (negb (LEVELS_eqb l DBG) || debugVisible dbg w2 = true ->
      log tz dbg now l m src cd w2
      = Some (observe [Constructed (Event_new now l m src cd None)] w2)).
Proof.
  intros E w2.
  assert (Hempty : inst_streams w2 = []).
  { destruct (getInstance_seed_ptrs w E) as [p1 [p2 [Hs [H1 H2]]]].
    apply N.eqb_neq in H1. apply N.eqb_neq in H2.
    subst w2. rewrite removeStream_streams.
    rewrite (getInstance_active _ (removeStream_active _ w)).
    rewrite removeStream_streams, Hs.
    cbn [map_find String.eqb Ascii.eqb Bool.eqb andb].
    cbn. rewrite H1. cbn. rewrite H2. reflexivity. }
  split; [exact Hempty|].
  intros Hgate. rewrite log_visible by assumption.
  unfold dispatch.
  rewrite (getInstance_active w2) by (subst w2; apply removeStream_active).
  change (inst_streams (observe ?o ?x)) with (inst_streams x).
  rewrite Hempty. reflexivity.
Qed.

(* ------------------------------------------------------------------ *)
(** ** The width of the time stamp *)

Lemma civil_year_range (z : Z) :
  0 <= z <= 2932896 ->
  let '(y, m, d) := civil_from_days z in 1970 <= y <= 9999.
Proof.
  intros Hz. unfold civil_from_days.
  set (zz := z + 719468). set (era := zz / 146097).
  set (doe := zz - era * 146097).
  assert (Hera : 4 <= era <= 24)
    by (subst era zz; Z.div_mod_to_equations; lia).
  assert (Hdoe : 0 <= doe <= 146096)
    by (subst doe era; Z.div_mod_to_equations; lia).
  assert (Hlow : era = 4 -> 135080 <= doe)
    by (subst doe era zz; Z.div_mod_to_equations; lia).
  assert (Hhigh : era = 24 -> doe <= 146036)
    by (subst doe era zz; Z.div_mod_to_equations; lia).
  clearbody doe era. clear zz z Hz.
  set (yoe := (doe - doe / 1460 + doe / 36524 - doe / 146096) / 365).
  assert (Hyoe : 0 <= yoe <= 399) by (subst yoe; Z.div_mod_to_equations; lia).
  set (doy := doe - (365 * yoe + yoe / 4 - yoe / 100)).
  assert (Hdoy : 0 <= doy <= 365)
    by (subst doy yoe; Z.div_mod_to_equations; lia).
  assert (Hl2 : era = 4 -> 369 <= yoe /\ (yoe = 369 -> 306 <= doy)).
  { intros He. specialize (Hlow He). subst doy yoe.
    Z.div_mod_to_equations; lia. }
  assert (Hh2 : era = 24 -> yoe <= 399 /\ (yoe = 399 -> doy <= 305)).
  { intros He. specialize (Hhigh He). subst doy yoe.
    Z.div_mod_to_equations; lia. }
  clearbody doy.
  set (mp := (5 * doy + 2) / 153).
  assert (Hmp : 0 <= mp <= 11 /\ (306 <= doy -> 10 <= mp) /\
                (doy <= 305 -> mp <= 9))
    by (subst mp; Z.div_mod_to_equations; lia).
  clearbody mp yoe.
  destruct (mp <? 10)%Z eqn:E;
    [apply Z.ltb_lt in E | apply Z.ltb_ge in E].
  - destruct (mp + 3 <=? 2)%Z eqn:E2; [apply Z.leb_le in E2; lia|]. lia.
  - destruct (mp - 9 <=? 2)%Z eqn:E2; [|apply Z.leb_gt in E2; lia]. lia.
Qed.

Lemma tm_year_range (s : Z) :
  0 <= s <= 253402300799 ->
  1970 <= tm_year (tm_of_seconds s) + 1900 <= 9999.
Proof.
  intros Hs. unfold tm_of_seconds.
  assert (Hd : 0 <= s / 86400 <= 2932896) by (Z.div_mod_to_equations; lia).
  pose proof (civil_year_range (s / 86400) Hd) as Hy.
  destruct (civil_from_days (s / 86400)) as [[y m] d]. simpl. lia.
Qed.

Lemma decimal_four_digits (y : Z) :
  1000 <= y <= 9999 -> String.length (decimal y) = 4%nat.
Proof.
  intros Hy.
  assert (Hall : forallb
                   (fun n => Nat.eqb (String.length (decimal (Z.of_nat n))) 4)
                   (seq (Z.to_nat 1000) (Z.to_nat 9000)) = true)
    by (vm_compute; reflexivity).
  rewrite forallb_forall in Hall.
  specialize (Hall (Z.to_nat y)).
  rewrite Z2Nat.id in Hall by lia.
  apply Nat.eqb_eq, Hall, in_seq. lia.
Qed.

(** X24: for a local time from 1970-01-01 00:00:00 to 9999-12-31
    23:59:59 the time stamp is 22 characters wide, so the text that
    follows the stamp starts at column 25 of the rendered line, and the
    line is 25 characters longer than what follows the stamp. *)
Theorem X24_stamp_width (tz : Z) (e : Event) :
  0 <= timestamp e + tz <= 253402300799 ->
  String.length (put_time (localtime_s tz (timestamp e)) dateFormat) = 22%nat
  /\ String.length (toString tz e) =
     (25
      + String.length (if String.eqb (code e) "" then ""
                       else "[" ++ code e ++ "] ")%string
      + String.length (msg e)
      + String.length (if String.eqb (source e) "" then ""
                       else " (from " ++ source e ++ ")")%string)%nat.
Proof.
  intros Hrange.
  assert (Hstamp : String.length
                     (put_time (localtime_s tz (timestamp e)) dateFormat)
                   = 22%nat).
  { rewrite stamp_shape. unfold localtime_s.
    pose proof (tm_year_range (timestamp e + tz) Hrange) as Hy.
    rewrite !append_length, !pad2_length.
    rewrite decimal_four_digits by lia. reflexivity. }
  split; [exact Hstamp|].
  rewrite toString_segments, !append_length, Hstamp, levelSymbol_length.
  lia.
Qed.

(* ------------------------------------------------------------------ *)
(** ** The further properties at work on the test scenarios *)

Lemma levels_scenario_active : instance levels_scenario <> None.
Proof. vm_compute. discriminate. Defined.


Lemma archive_scenario_live : registry_live (getInstance archive_scenario).
Proof.
  intros n p Hin. vm_compute in Hin.
  destruct Hin as [H|[H|[H|[]]]]; inversion H; subst;
    unfold live; vm_compute; discriminate.
Defined.

(** An event with a code, and an event whose message spells the same
    code segment out, render alike; their levels agree. *)
Lemma X3_witness :
  toString 0 (mk_Event 0 ERR "b" "" "a")
    = toString 0 (mk_Event 0 ERR "[a] b" "" "")
  /\ level (mk_Event 0 ERR "b" "" "a") = level (mk_Event 0 ERR "[a] b" "" "").
Proof.
  assert (H : toString 0 (mk_Event 0 ERR "b" "" "a")
              = toString 0 (mk_Event 0 ERR "[a] b" "" ""))
    by (vm_compute; reflexivity).
  split; [exact H|].
  exact (proj2 (X3_level_read_back 0 _ _) H).
Defined.

Lemma X5_witness :
  negb (LEVELS_eqb ERR DBG) || debugVisible false levels_scenario = true
  /\ registry_live (getInstance levels_scenario)
  /\ exists w', log 0 false 1 ERR "err_msg" None None levels_scenario = Some w'.
Proof.
  split; [reflexivity|]. split; [exact levels_scenario_live|].
  exact (proj2 (X5_log_defined_iff_live 0 false 1 ERR "err_msg" None None
                  levels_scenario eq_refl) levels_scenario_live).
Defined.

Lemma X6_witness :
  instance levels_scenario <> None
  /\ exists w',
       log 0 false 1 ERR "err_msg" None None levels_scenario = Some w' /\
       instance w' = instance levels_scenario /\
       showDebug w' = showDebug levels_scenario.
Proof.
  split; [exact levels_scenario_active|].
  destruct (log 0 false 1 ERR "err_msg" None None levels_scenario)
    as [w'|] eqn:E; [|vm_compute in E; discriminate].
  exists w'. split; [reflexivity|].
  destruct (X6_log_leaves_configuration 0 false 1 ERR "err_msg" None None
              levels_scenario w' levels_scenario_active E) as [H1 [H2 _]].
  split; [exact H1 | exact H2].
Defined.

(** The archive listening to WARNING | ERR records a WARNING. *)
Lemma X7_witness :
  negb (LEVELS_eqb WARNING DBG) || debugVisible false archive_scenario = true
  /\ registry_live (getInstance archive_scenario)
  /\ heap_lookup 1%N (heap (getInstance archive_scenario))
     = Some (setLevels 12 ArchiveStream_new)
  /\ exists w' s',
       log 0 false 5 WARNING "warn_msg" None None archive_scenario = Some w' /\
       heap_lookup 1%N (heap w') = Some s' /\
       getEvents s' = [Event_new 5 WARNING "warn_msg" None None None].
Proof.
  split; [reflexivity|]. split; [exact archive_scenario_live|].
  split; [reflexivity|].
  destruct (X7_archive_records 0 false 5 WARNING "warn_msg" None None
              archive_scenario 1%N (setLevels 12 ArchiveStream_new) []
              eq_refl archive_scenario_live eq_refl eq_refl)
    as [w' [s' [Hlog [Hp [_ Hev]]]]].
  exists w', s'. split; [exact Hlog|]. split; [exact Hp|exact Hev].
Defined.

(** "Logger Levels": the stream listening to DBG | INFO | ERR holds an
    INFO event and not a WARNING event. *)
Lemma X8_witness :
  negb (LEVELS_eqb INFO DBG) || debugVisible false levels_scenario = true
  /\ registry_live (getInstance levels_scenario)
  /\ heap_lookup 1%N (heap (getInstance levels_scenario))
     = Some (setLevels 11 TestStream_new)
  /\ (exists w' s',
        log 0 false 5 INFO "info_msg" None None levels_scenario = Some w' /\
        heap_lookup 1%N (heap w') = Some s' /\
        held s' = Some (Event_new 5 INFO "info_msg" None None None))
  /\ (exists w' s',
        log 0 false 5 WARNING "warn_msg" None None levels_scenario = Some w' /\
        heap_lookup 1%N (heap w') = Some s' /\
        held s' = Some Event_default).
Proof.
  split; [reflexivity|]. split; [exact levels_scenario_live|].
  split; [reflexivity|]. split.
  - destruct (X8_test_stream_holds 0 false 5 INFO "info_msg" None None
                levels_scenario 1%N (setLevels 11 TestStream_new) Event_default
                eq_refl levels_scenario_live eq_refl eq_refl)
      as [w' [s' [Hlog [Hp [_ Hh]]]]].
    exists w', s'. split; [exact Hlog|]. split; [exact Hp|exact Hh].
  - destruct (X8_test_stream_holds 0 false 5 WARNING "warn_msg" None None
                levels_scenario 1%N (setLevels 11 TestStream_new) Event_default
                eq_refl levels_scenario_live eq_refl eq_refl)
      as [w' [s' [Hlog [Hp [_ Hh]]]]].
    exists w', s'. split; [exact Hlog|]. split; [exact Hp|exact Hh].
Defined.

(** "Optional Formatting": [info("info_msg", "UnitTest", "C0002")]. *)
Lemma X9_witness :
  negb (LEVELS_eqb INFO DBG) || debugVisible false levels_scenario = true
  /\ registry_live (getInstance levels_scenario)
  /\ heap_lookup 1%N (heap (getInstance levels_scenario))
     = Some (setLevels 11 TestStream_new)
  /\ accepts 11 INFO = true
  /\ (0 < entries_naming 1%N (inst_streams (getInstance levels_scenario)))%nat
  /\ exists w' s' t,
       log 0 false 5 INFO "info_msg" (Some "UnitTest"%string)
         (Some "C0002"%string) levels_scenario = Some w' /\
       heap_lookup 1%N (heap w') = Some s' /\
       getTime 0 s' = Some t /\
       getEventString 0 s'
       = Some ("   " ++ t ++ "[C0002] info_msg (from UnitTest)")%string.
Proof.
  assert (Hreg : (0 < entries_naming 1%N
                        (inst_streams (getInstance levels_scenario)))%nat)
    by (vm_compute; lia).
  split; [reflexivity|]. split; [exact levels_scenario_live|].
  split; [reflexivity|]. split; [reflexivity|]. split; [exact Hreg|].
  destruct (X9_test_stream_formatting 0 false 5 INFO "info_msg"
              (Some "UnitTest"%string) (Some "C0002"%string)
              levels_scenario 1%N (setLevels 11 TestStream_new) Event_default
              eq_refl levels_scenario_live eq_refl eq_refl eq_refl Hreg)
    as [w' [s' [t [Hlog [Hp [_ [Ht Hs]]]]]]].
  exists w', s', t. split; [exact Hlog|]. split; [exact Hp|].
  split; [exact Ht|exact Hs].
Defined.

Lemma X10_witness :
  instance (World_start []) = None
  /\ negb (LEVELS_eqb INFO DBG) || debugVisible false (World_start []) = true
  /\ fs_open_append "log.txt" (files (World_start [])) = Some ""%string
  /\ exists w',
       info 0 false 0 "info_msg" None None (World_start []) = Some w' /\
       console w' = "   1970/01/01/00:00:00 - info_msg"%string /\
       fs_open_append "log.txt" (files w')
       = Some "   1970/01/01/00:00:00 - info_msg"%string.
Proof.
  split; [reflexivity|]. split; [reflexivity|]. split; [reflexivity|].
  destruct (X10_zero_setup_output 0 false 0 INFO "info_msg" None None
              (World_start []) eq_refl eq_refl) as [w' [Hlog [Hc [Hf _]]]].
  exists w'. split; [exact Hlog|]. split; [exact Hc|].
  exact (proj1 (Hf ""%string eq_refl)).
Defined.

Lemma X11_witness :
  heap_lookup 1%N (heap (snd (new (TextFileStream_new None) (World_start []))))
    = Some (TextFileStream_new None)
  /\ derived (TextFileStream_new None) = TextFileStream "Log.txt"
  /\ fs_open_append "Log.txt"
       (files (snd (new (TextFileStream_new None) (World_start []))))
     = Some ""%string
  /\ fs_open_append "Log.txt"
       (files (handle_each 0 1%N
                 [mk_Event 0 INFO "one" "" ""; mk_Event 60 ERR "two" "" ""]
                 (snd (new (TextFileStream_new None) (World_start [])))))
     = Some "   1970/01/01/00:00:00 - one!! 1970/01/01/00:01:00 - two"%string.
Proof.
  split; [reflexivity|]. split; [reflexivity|]. split; [reflexivity|].
  exact (proj1 (X11_file_appends_in_order 0 1%N (TextFileStream_new None)
                  "Log.txt"
                  [mk_Event 0 INFO "one" "" ""; mk_Event 60 ERR "two" "" ""]
                  (snd (new (TextFileStream_new None) (World_start [])))
                  ""%string eq_refl eq_refl eq_refl)).
Defined.

Lemma X12_witness :
  heap_lookup 1%N
    (heap (snd (new (TextFileStream_new (Some "log.txt"%string))
                  locked_log_scenario)))
    = Some (TextFileStream_new (Some "log.txt"%string))
  /\ fs_open_append "log.txt" (files locked_log_scenario) = None
  /\ files (handle_each 0 1%N [Event_default; Event_default]
              (snd (new (TextFileStream_new (Some "log.txt"%string))
                      locked_log_scenario)))
     = files locked_log_scenario.
Proof.
  split; [reflexivity|]. split; [reflexivity|].
  exact (proj1 (X12_file_locked_drops 0 1%N
                  (TextFileStream_new (Some "log.txt"%string)) "log.txt"
                  [Event_default; Event_default]
                  (snd (new (TextFileStream_new (Some "log.txt"%string))
                          locked_log_scenario))
                  eq_refl eq_refl eq_refl)).
Defined.

Lemma X13_witness :
  heap_lookup 1%N (heap (snd (new ConsoleStream_new (World_start []))))
    = Some ConsoleStream_new
  /\ console (handle_each 0 1%N
                [mk_Event 0 INFO "one" "" ""; mk_Event 60 ERR "two" "" ""]
                (snd (new ConsoleStream_new (World_start []))))
     = "   1970/01/01/00:00:00 - one!! 1970/01/01/00:01:00 - two"%string.
Proof.
  split; [reflexivity|].
  exact (proj1 (X13_console_writes_in_order 0 1%N ConsoleStream_new
                  [mk_Event 0 INFO "one" "" ""; mk_Event 60 ERR "two" "" ""]
                  (snd (new ConsoleStream_new (World_start [])))
                  eq_refl eq_refl)).
Defined.

Lemma X14_witness :
  derived (TextFileStream_new None) = TextFileStream "Log.txt"
  /\ fs_open_append "other.txt"
       (files (World_start [("Log.txt"%string, Regular "kept")]))
     = Some ""%string
  /\ fs_lookup "Log.txt"
       (files (handle 0 1%N (setFilename "other.txt" (TextFileStream_new None))
                 Event_default
                 (World_start [("Log.txt"%string, Regular "kept")])))
     = Some (Regular "kept").
Proof.
  split; [reflexivity|]. split; [reflexivity|].
  destruct (X14_setFilename_redirects 0 1%N (TextFileStream_new None)
              "Log.txt" "other.txt" Event_default
              (World_start [("Log.txt"%string, Regular "kept")]) ""%string
              eq_refl eq_refl) as [_ [_ [_ Ho]]].
  exact (Ho "Log.txt"%string ltac:(discriminate)).
Defined.

Lemma X15_witness :
  map_find "Target" (inst_streams (getInstance (World_start []))) = None
  /\ removeStream "Target" (World_start [])
     = (nullptr, getInstance (World_start [])).
Proof.
  split; [reflexivity|].
  exact (X15_remove_unknown "Target" (World_start []) eq_refl).
Defined.

Lemma X16_witness :
  "defaultConsole"%string <> "dbg_info"%string
  /\ fst (getStream "defaultConsole"
            (snd (removeStream "dbg_info" levels_scenario)))
     = fst (getStream "defaultConsole" levels_scenario).
Proof.
  assert (H : "defaultConsole"%string <> "dbg_info"%string) by discriminate.
  split; [exact H|].
  exact (proj2 (X16_remove_only_unregisters "dbg_info" "defaultConsole"
                  levels_scenario) H).
Defined.

Lemma X17_witness :
  ~ In "Target"%string
      (names (inst_streams (getInstance (snd management_scenario))))
  /\ fst management_scenario <> nullptr
  /\ inst_streams
       (snd (removeStream "Target"
               (addStream "Target" (fst management_scenario)
                  (snd management_scenario))))
     = inst_streams (getInstance (snd management_scenario)).
Proof.
  assert (H1 : ~ In "Target"%string
                 (names (inst_streams (getInstance (snd management_scenario))))).
  { vm_compute. intros [H|[H|[]]]; discriminate. }
  assert (H2 : fst management_scenario <> nullptr) by (vm_compute; discriminate).
  split; [exact H1|]. split; [exact H2|].
  exact (proj2 (X17_add_remove_restores "Target" (fst management_scenario)
                  (snd management_scenario) H1 H2)).
Defined.

Lemma X18_witness :
  reachable 0 false (World_start [])
  /\ negb (LEVELS_eqb INFO DBG)
     || debugVisible false (addStream "Test" nullptr (World_start [])) = true
  /\ In "Test"%string
       (names (inst_streams (addStream "Test" nullptr (World_start []))))
  /\ log 0 false 0 INFO "Info" None None
       (addStream "Test" nullptr (World_start [])) = None.
Proof.
  assert (Hr : reachable 0 false (World_start [])) by apply reach_start.
  destruct (X18_null_entry_sticks 0 false 0 INFO "Info" None None "Test"
              (World_start []) Hr) as [_ [_ [Hin Hlog]]].
  split; [exact Hr|]. split; [reflexivity|]. split; [exact Hin|].
  exact (proj1 (Hlog eq_refl)).
Defined.

Lemma X19_witness :
  instance levels_scenario <> None
  /\ In ("dbg_info"%string, 1%N) (inst_streams levels_scenario)
  /\ negb (LEVELS_eqb WARNING DBG) || debugVisible false levels_scenario = true
  /\ log 0 false 0 WARNING "warn_msg" None None (delete 1%N levels_scenario)
     = None.
Proof.
  assert (Hin : In ("dbg_info"%string, 1%N) (inst_streams levels_scenario))
    by (vm_compute; now left).
  split; [exact levels_scenario_active|]. split; [exact Hin|].
  split; [reflexivity|].
  exact (X19_delete_while_registered 0 false 0 WARNING "warn_msg" None None
           "dbg_info" 1%N levels_scenario levels_scenario_active Hin eq_refl).
Defined.

Lemma X20_witness :
  instance target_scenario <> None
  /\ null_free target_scenario
  /\ registry_live target_scenario
  /\ map_find "Target" (inst_streams target_scenario) = Some 1%N
  /\ (forall n, In (n, 1%N) (inst_streams target_scenario)
                -> n = "Target"%string)
  /\ registry_live
       (delete 1%N (snd (removeStream "Target" target_scenario))).
Proof.
  assert (Hact : instance target_scenario <> None)
    by (vm_compute; discriminate).
  assert (Hlive : registry_live target_scenario).
  { intros n p Hin. vm_compute in Hin.
    destruct Hin as [H|[H|[H|[]]]]; inversion H; subst;
      unfold live; vm_compute; discriminate. }
  assert (Honly : forall n, In (n, 1%N) (inst_streams target_scenario)
                            -> n = "Target"%string).
  { intros n Hin. vm_compute in Hin.
    destruct Hin as [H|[H|[H|[]]]]; inversion H; reflexivity. }
  split; [exact Hact|]. split; [reflexivity|].
  split; [exact Hlive|]. split; [reflexivity|].
  split; [exact Honly|].
  exact (proj2 (X20_remove_then_delete "Target" 1%N target_scenario
                  Hact eq_refl Hlive eq_refl Honly)).
Defined.

Lemma X21_witness :
  reachable 0 false (World_start [])
  /\ "b"%string <> "a"%string
  /\ inst_streams (addStream "b" 1%N (addStream "a" 2%N (World_start [])))
     = inst_streams (addStream "a" 2%N (addStream "b" 1%N (World_start []))).
Proof.
  assert (Hr : reachable 0 false (World_start [])) by apply reach_start.
  assert (Hne : "b"%string <> "a"%string) by discriminate.
  split; [exact Hr|]. split; [exact Hne|].
  exact (proj1 (X21_registration_order 0 false "b" "a" 1%N 2%N
                  (World_start []) Hr) Hne).
Defined.

Lemma X22_witness :
  exists w',
    warning 0 false 7 "warn_msg" None (Some "C0001"%string) (World_start [])
      = Some w' /\
    constructed (trace w') = [mk_Event 7 WARNING "warn_msg" "" "C0001"].
Proof.
  destruct (warning 0 false 7 "warn_msg" None (Some "C0001"%string)
              (World_start [])) as [w'|] eqn:E;
    [|vm_compute in E; discriminate].
  exists w'. split; [reflexivity|].
  exact (proj1 (proj2 (X22_convenience_calls 0 false 7 "warn_msg" None
                         (Some "C0001"%string) (World_start []) w')) E).
Defined.

Lemma X23_witness :
  instance (World_start []) = None
  /\ inst_streams
       (snd (removeStream "defaultConsole"
               (snd (removeStream "defaultTextFile" (World_start [])))))
     = [].
Proof.
  split; [reflexivity|].
  exact (proj1 (X23_silent_without_destinations 0 false 0 INFO "Info"
                  None None (World_start []) eq_refl)).
Defined.

Lemma X24_witness :
  0 <= timestamp (mk_Event 946728000 WARNING "Test Message" "" "") + 0
    <= 253402300799
  /\ String.length
       (toString 0 (mk_Event 946728000 WARNING "Test Message" "" ""))
     = 37%nat.
Proof.
  assert (H : 0 <= timestamp (mk_Event 946728000 WARNING "Test Message" "" "")
                   + 0 <= 253402300799) by (simpl; lia).
  split; [exact H|].
  exact (proj2 (X24_stamp_width 0 _ H)).
Defined.

(* ------------------------------------------------------------------ *)
(** ** Changing a mask *)




(* ================================================================== *)
(** * Dispatch, turn by turn *)

Lemma notify_all_app (tz : Z) (e : Event) : forall a b w,
  notify_all tz (a ++ b) e w =
  match notify_all tz a e w with
  | Some w1 => notify_all tz b e w1
  | None => None
  end.
Proof.
  induction a as [|[n p] a IH]; intros b w; simpl; [reflexivity|].
  destruct (call tz p e w); [apply IH | reflexivity].
Qed.

Lemma notify_all_Some_masks (tz : Z) (e : Event) (entries : registry)
    (w w' : World) :
  notify_all tz entries e w = Some w' -> same_masks w w'.
Proof.
  intros H.
  destruct (notify_all_spec tz e entries w
              (notify_all_Some_live tz e entries w w' H))
    as [w1 [a [Hn [_ [_ [_ [_ [_ [_ Hm]]]]]]]]].
  rewrite H in Hn. inversion Hn; subst. exact Hm.
Qed.

(** The turn of one entry in a loop that completes: the entries before it
    have been served, its object is there with the mask it had at the
    start, and the loop goes on from the world that [handle] leaves if the
    mask has the level, and from the world as it was if not. *)
Lemma notify_all_turn (tz : Z) (e : Event) (before after : registry)
    (name : string) (p : ptr) (w w' : World) :
  notify_all tz (before ++ (name, p) :: after) e w = Some w' ->
  exists w1 s,
    notify_all tz before e w = Some w1 /\
    heap_lookup p (heap w1) = Some s /\
    levels s = mask_at w p /\
    notify_all tz after e
      (if accepts (mask_at w p) (level e)
       then handle tz p s e (observe [Handled p e] (observe [Offered p e] w1))
       else observe [Offered p e] w1) = Some w'.
Proof.
  intros H. rewrite notify_all_app in H.
  destruct (notify_all tz before e w) as [w1|] eqn:E1; [|discriminate].
  pose proof (notify_all_Some_masks tz e before w w1 E1) as Hm.
  simpl in H. unfold call in H.
  destruct (heap_lookup p (heap w1)) as [s|] eqn:Es; [|discriminate].
  assert (Hmask : levels s = mask_at w p).
  { rewrite <- (same_masks_mask_at w w1 p Hm). unfold mask_at. now rewrite Es. }
  exists w1, s. split; [reflexivity|]. split; [exact Es|].
  split; [exact Hmask|]. rewrite <- Hmask.
  destruct (accepts (levels s) (level e)); exact H.
Qed.

(** The dispatch block delivers, whenever every registered pointer is
    live. *)
Lemma dispatch_delivery (tz now : Z) (l : LEVELS) (m : string)
    (src cd : option string) (w : World) :
  registry_live (getInstance w) ->
  exists w' added,
    dispatch tz now l m src cd w = Some w' /\
    delivery tz now l m src cd w w' added /\
    instance w' = instance (getInstance w) /\
    showDebug w' = showDebug w.
Proof.
  intros Hlive.
  destruct (dispatch_spec tz now l m src cd w Hlive)
    as [w' [added [Hd [Ht [Ho [Hh [_ [Hi [Hs _]]]]]]]]].
  exists w', added. split; [exact Hd|]. split; [|split; assumption].
  unfold delivery. split; [exact Ht|]. split; [exact Ho|]. split; [exact Hh|].
  intros before name p after Hsplit.
  unfold dispatch in Hd.
  change (inst_streams (observe ?o ?x)) with (inst_streams x) in Hd.
  rewrite Hsplit in Hd.
  exact (notify_all_turn tz _ before after name p _ w' Hd).
Qed.


(** C4: in a build without [SHOW_DEBUG] and with the switch off, a DBG
    log call returns the world as it found it, so no event is constructed
    and no handler runs; after [forceDebug(true)] a DBG call is dispatched
    like a call of any other level: it runs the dispatch block, and when
    every registered pointer is live the DBG event is constructed, offered
    to every entry, and handled by the destinations whose mask has DBG;
    and for a level other than DBG, setting the switch before the call or
    after it makes no difference. *)
Theorem C4_debug_gating (tz now : Z) (m : string) (src cd : option string)
    (w : World) :
  log tz false now DBG m src cd (forceDebug false w)
    = Some (forceDebug false w)
  /\ log tz false now DBG m src cd (forceDebug true w)
     = dispatch tz now DBG m src cd (forceDebug true w)
  /\ (forall dbg L, L <> DBG ->
        log tz dbg now L m src cd w = dispatch tz now L m src cd w)
  /\ (forall dbg show L, L <> DBG ->
        log tz dbg now L m src cd (forceDebug show w)
        = option_map (forceDebug show) (log tz dbg now L m src cd w))
  /\ (registry_live (getInstance (forceDebug true w)) ->
      exists w' added,
        log tz false now DBG m src cd (forceDebug true w) = Some w' /\
        delivery tz now DBG m src cd (forceDebug true w) w' added /\
        constructed (trace w')
        = constructed (trace w) ++ [Event_new now DBG m src cd None] /\
        showDebug w' = true).
Proof.
  split; [reflexivity|]. split; [reflexivity|]. split; [|split].
  - intros dbg L HL. apply log_visible.
    apply LEVELS_eqb_DBG in HL. now rewrite HL.
  - intros dbg show L HL. apply LEVELS_eqb_DBG in HL.
    unfold log. rewrite HL. simpl. apply dispatch_showDebug.
  - intros Hlive.
    destruct (dispatch_delivery tz now DBG m src cd (forceDebug true w) Hlive)
      as [w' [added [Hd [Hdel [_ Hs]]]]].
    exists w', added.
    assert (Hlog : log tz false now DBG m src cd (forceDebug true w) = Some w')
      by exact Hd.
    split; [exact Hlog|]. split; [exact Hdel|]. split; [|exact Hs].
    apply log_constructs in Hlog. exact Hlog.
Qed.

(* ------------------------------------------------------------------ *)
(** ** First use, in full *)

Lemma getInstance_seed_full (w : World) :
  instance w = None ->
  exists p1 p2,
    inst_streams (getInstance w)
      = [("defaultConsole"%string, p2); ("defaultTextFile"%string, p1)] /\
    heap_lookup p1 (heap (getInstance w))
      = Some {| levels := ALL_LEVELS; derived := TextFileStream "log.txt" |} /\
    heap_lookup p2 (heap (getInstance w))
      = Some {| levels := ALL_LEVELS; derived := ConsoleStream |} /\
    p1 <> p2 /\ p1 <> nullptr /\ p2 <> nullptr.
Proof.
  intros E. rewrite (getInstance_first w E). cbv zeta.
  set (a := TextFileStream_new (Some "log.txt"%string)).
  set (p1 := fresh (heap w)).
  set (p2 := fresh (heap w ++ [(p1, a)])).
  assert (H1 : heap_lookup p1 (heap w ++ [(p1, a)]) = Some a).
  { rewrite heap_lookup_app. unfold p1. rewrite heap_lookup_fresh. simpl.
    now rewrite N.eqb_refl. }
  assert (Hlt : (p1 < p2)%N) by (apply heap_lookup_bound; congruence).
  exists p1, p2. split; [reflexivity|]. simpl heap.
  split; [|split; [|split; [|split]]].
  - rewrite heap_lookup_app, H1. reflexivity.
  - rewrite heap_lookup_app. unfold p2 at 1. rewrite heap_lookup_fresh.
    simpl. now rewrite N.eqb_refl.
  - lia.
  - apply fresh_not_null.
  - apply fresh_not_null.
Qed.

(** What the dispatch block does to the console, the files and the heap
    when the registry holds the two defaults. *)
Lemma seeded_dispatch_effects (tz now : Z) (l : LEVELS) (m : string)
    (src cd : option string) (w : World) (p1 p2 : ptr) :
  inst_streams (getInstance w)
    = [("defaultConsole"%string, p2); ("defaultTextFile"%string, p1)] ->
  heap_lookup p1 (heap (getInstance w))
    = Some {| levels := ALL_LEVELS; derived := TextFileStream "log.txt" |} ->
  heap_lookup p2 (heap (getInstance w))
    = Some {| levels := ALL_LEVELS; derived := ConsoleStream |} ->
  exists w',
    dispatch tz now l m src cd w = Some w' /\
    console w'
      = (console w ++ toString tz (Event_new now l m src cd None))%string /\
    (forall content, fs_open_append "log.txt" (files w) = Some content ->
       fs_open_append "log.txt" (files w')
         = Some (content ++ toString tz (Event_new now l m src cd None))%string
       /\ (forall other, other <> "log.txt"%string ->
             fs_lookup other (files w') = fs_lookup other (files w))) /\
    (fs_open_append "log.txt" (files w) = None -> files w' = files w) /\
    heap w' = heap (getInstance w).
Proof.
  intros Hs H1 H2.
  destruct (getInstance_io w) as [Hc Hf].
  unfold dispatch.
  set (e := Event_new now l m src cd None).
  remember (getInstance w) as w0 eqn:Hw0.
  change (inst_streams (observe [Constructed e] w0)) with (inst_streams w0).
  rewrite Hs. cbn [notify_all].
  unfold call at 1. change (heap (observe [Constructed e] w0)) with (heap w0).
  rewrite H2. cbn [levels]. rewrite accepts_ALL_LEVELS.
  set (wc := handle tz p2 _ e _).
  assert (Hwc : heap wc = heap w0 /\ files wc = files w0 /\
                console wc = (console w0 ++ toString tz e)%string)
    by (repeat split).
  destruct Hwc as [Hh [Hfc Hcc]]. clearbody wc.
  unfold call. rewrite Hh, H1. cbn [levels]. rewrite accepts_ALL_LEVELS.
  set (wo := observe [Handled p1 e] (observe [Offered p1 e] wc)).
  assert (Hwo : files wo = files w /\
                console wo = (console w ++ toString tz e)%string /\
                heap wo = heap w0).
  { subst wo. unfold observe. cbn [files console heap].
    rewrite Hfc, Hcc, Hf, Hc, Hh. repeat split. }
  destruct Hwo as [Hfo [Hco Hho]]. clearbody wo.
  set (sf := TextFileStream_new (Some "log.txt"%string)).
  exists (handle tz p1 sf e wo). split; [reflexivity|].
  destruct (fs_open_append "log.txt" (files wo)) as [content|] eqn:Eo.
  - destruct (file_handle_content tz p1 sf "log.txt" e wo content
                eq_refl Eo) as [Hk [Ho [Hhp Hcp]]].
    rewrite Hfo in Eo.
    split; [now rewrite Hcp|]. split; [|split; [|now rewrite Hhp]].
    + intros c Hopen. rewrite Eo in Hopen. inversion Hopen; subst c.
      split; [exact Hk|]. intros other Hother.
      rewrite (Ho other Hother). now rewrite Hfo.
    + intros Hopen. rewrite Eo in Hopen. discriminate.
  - destruct (file_handle_locked tz p1 sf "log.txt" e wo eq_refl Eo)
      as [Hk [Hhp Hcp]].
    rewrite Hfo in Eo.
    split; [now rewrite Hcp|]. split; [|split; [|now rewrite Hhp]].
    + intros c Hopen. rewrite Eo in Hopen. discriminate.
    + intros _. now rewrite Hk.
Qed.

(** C8 (as the code has it): the first [getStream], [addStream],
    [removeStream] or [log] call that the debug gate lets through creates
    the registry and seeds it with exactly two destinations, a file
    destination on "log.txt" under "defaultTextFile" and a console
    destination under "defaultConsole", both with the mask 31, the union of
    the five levels, before it does its own work: [getStream] looks the
    name up among the two, [addStream] adds its entry to them,
    [removeStream] takes its name away from them, and [log] delivers to
    both, the rendered event reaching the console and "log.txt"; a first
    [log] call that the gate stops, and [forceDebug], leave the registry
    uncreated. *)
Theorem C8_lazy_seeding (tz : Z) (dbg : bool) (now : Z) (L : LEVELS)
    (m : string) (src cd : option string) (name : string) (d : ptr)
    (w : World) :
  instance w = None ->
  (exists p1 p2,
     inst_streams (getInstance w)
       = [("defaultConsole"%string, p2); ("defaultTextFile"%string, p1)] /\
     heap_lookup p1 (heap (getInstance w))
       = Some {| levels := ALL_LEVELS; derived := TextFileStream "log.txt" |} /\
     heap_lookup p2 (heap (getInstance w))
       = Some {| levels := ALL_LEVELS; derived := ConsoleStream |} /\
     p1 <> p2 /\ p1 <> nullptr /\ p2 <> nullptr /\
     getStream name w
       = (if String.eqb name "defaultConsole" then p2
          else if String.eqb name "defaultTextFile" then p1
          else nullptr,
          getInstance w) /\
     inst_streams (addStream name d w)
       = map_assign name d
           [("defaultConsole"%string, p2); ("defaultTextFile"%string, p1)] /\
     heap (addStream name d w) = heap (getInstance w) /\
     fst (removeStream name w)
       = (if String.eqb name "defaultConsole" then p2
          else if String.eqb name "defaultTextFile" then p1
          else nullptr) /\
     inst_streams (snd (removeStream name w))
       = (if String.eqb name "defaultConsole"
          then [("defaultTextFile"%string, p1)]
          else if String.eqb name "defaultTextFile"
          then [("defaultConsole"%string, p2)]
          else [("defaultConsole"%string, p2);
                ("defaultTextFile"%string, p1)]) /\
     heap (snd (removeStream name w)) = heap (getInstance w) /\
     (negb (LEVELS_eqb L DBG) || debugVisible dbg w = true ->
      exists w' added,
        log tz dbg now L m src cd w = Some w' /\
        inst_streams w'
          = [("defaultConsole"%string, p2); ("defaultTextFile"%string, p1)] /\
        heap w' = heap (getInstance w) /\
        delivery tz now L m src cd w w' added /\
        handled added = [(p2, Event_new now L m src cd None);
                         (p1, Event_new now L m src cd None)] /\
        console w'
          = (console w ++ toString tz (Event_new now L m src cd None))%string /\
        (forall content, fs_open_append "log.txt" (files w) = Some content ->
           fs_open_append "log.txt" (files w')
           = Some (content ++ toString tz (Event_new now L m src cd None))%string) /\
        (fs_open_append "log.txt" (files w) = None -> files w' = files w)))
  /\ ALL_LEVELS =
       Z.lor (level_value DBG)
         (Z.lor (level_value INFO)
            (Z.lor (level_value WARNING)
               (Z.lor (level_value ERR) (level_value CRITICAL))))
  /\ ALL_LEVELS = 31
  /\ instance (getInstance w) <> None
  /\ (negb (LEVELS_eqb L DBG) || debugVisible dbg w = false ->
      log tz dbg now L m src cd w = Some w)
  /\ (forall show, instance (forceDebug show w) = None).
Proof.
  intros E. split; [|split; [reflexivity|split; [reflexivity|split; [|split]]]].
  - destruct (getInstance_seed_full w E)
      as [p1 [p2 [Hs [H1 [H2 [Hne [Hn1 Hn2]]]]]]].
    assert (Hfind : map_find name (inst_streams (getInstance w)) =
                    if String.eqb name "defaultConsole" then Some p2
                    else if String.eqb name "defaultTextFile" then Some p1
                    else None)
      by (rewrite Hs; reflexivity).
    apply N.eqb_neq in Hn1. apply N.eqb_neq in Hn2.
    exists p1, p2.
    split; [exact Hs|]. split; [exact H1|]. split; [exact H2|].
    split; [exact Hne|]. split; [now apply N.eqb_neq|].
    split; [now apply N.eqb_neq|]. split; [|split; [|split; [|split; [|split; [|split]]]]].
    + rewrite (surjective_pairing (getStream name w)).
      rewrite getStream_result, getStream_world, Hfind.
      destruct (String.eqb name "defaultConsole");
        [reflexivity|destruct (String.eqb name "defaultTextFile"); reflexivity].
    + rewrite addStream_streams, Hs. reflexivity.
    + reflexivity.
    + rewrite removeStream_result, getStream_result, Hfind.
      destruct (String.eqb name "defaultConsole");
        [reflexivity|destruct (String.eqb name "defaultTextFile"); reflexivity].
    + rewrite removeStream_streams, Hfind, Hs.
      destruct (String.eqb_spec name "defaultConsole") as [->|Hc].
      * rewrite Hn2. reflexivity.
      * destruct (String.eqb_spec name "defaultTextFile") as [->|Ht].
        -- rewrite Hn1. reflexivity.
        -- reflexivity.
    + apply removeStream_heap.
    + intros Hgate. rewrite log_visible by assumption.
      assert (Hlive : registry_live (getInstance w)).
      { intros n p Hin. rewrite Hs in Hin. unfold live.
        destruct Hin as [H|[H|[]]]; inversion H; subst; congruence. }
      destruct (dispatch_delivery tz now L m src cd w Hlive)
        as [w' [added [Hd [Hdel [Hi _]]]]].
      destruct (seeded_dispatch_effects tz now L m src cd w p1 p2 Hs H1 H2)
        as [w2 [Hd2 [Hcon [Hopen [Hlock Hheap]]]]].
      rewrite Hd in Hd2. inversion Hd2; subst w2.
      exists w', added. split; [exact Hd|]. split.
      { rewrite <- Hs. unfold inst_streams. now rewrite Hi. }
      split; [exact Hheap|]. split; [exact Hdel|]. split.
      { destruct Hdel as [_ [_ [Hh _]]]. rewrite Hh, Hs. simpl.
        unfold mask_at. rewrite H1, H2. cbn [levels].
        now rewrite accepts_ALL_LEVELS. }
      split; [exact Hcon|]. split; [|exact Hlock].
      intros content Hc. exact (proj1 (Hopen content Hc)).
  - apply getInstance_instance.
  - intros Hgate. unfold log. now rewrite Hgate.
  - intros show. exact E.
Qed.

(* ------------------------------------------------------------------ *)
(** ** Dispatch at work on the test scenarios *)



Lemma levels_scenario_forced_live :
  registry_live (getInstance (forceDebug true levels_scenario)).
Proof.
  intros n p Hin. vm_compute in Hin.
  destruct Hin as [H|[H|[H|[H|[]]]]]; inversion H; subst;
    unfold live; vm_compute; discriminate.
Defined.

(** "Debug Messages" in a release build: with the switch off a DBG call
    changes nothing; with the switch on the DBG event is handled by the
    stream listening to DBG | INFO | ERR and by the defaults, and not by
    the stream listening to WARNING | CRITICAL | ERR. *)
Lemma C4_witness :
  registry_live (getInstance (forceDebug true levels_scenario))
  /\ INFO <> DBG
  /\ log 0 false 2 DBG "Debug" None None (forceDebug false levels_scenario)
     = Some (forceDebug false levels_scenario)
  /\ log 0 false 2 INFO "Info" None None (forceDebug true levels_scenario)
     = option_map (forceDebug true)
         (log 0 false 2 INFO "Info" None None levels_scenario)
  /\ exists w' added,
       log 0 false 2 DBG "Debug" None None (forceDebug true levels_scenario)
         = Some w' /\
       trace w' =
         trace (forceDebug true levels_scenario)
         ++ Constructed (Event_new 2 DBG "Debug" None None None) :: added /\
       handled added =
         map (fun p => (p, Event_new 2 DBG "Debug" None None None))
           [1%N; 4%N; 3%N] /\
       option_map held (heap_lookup 1%N (heap w'))
         = Some (Some (Event_new 2 DBG "Debug" None None None)) /\
       option_map held (heap_lookup 2%N (heap w')) = Some (Some Event_default) /\
       console w' = " # 1970/01/01/00:00:02 - Debug"%string.
Proof.
  assert (Hinfo : INFO <> DBG) by discriminate.
  destruct (C4_debug_gating 0 2 "Debug" None None levels_scenario)
    as [Hoff [_ [_ [_ Hon]]]].
  destruct (Hon levels_scenario_forced_live)
    as [w' [added [Hlog [[Ht [_ [Hh _]]] _]]]].
  split; [exact levels_scenario_forced_live|]. split; [exact Hinfo|].
  split; [exact Hoff|]. split.
  - exact (proj1 (proj2 (proj2 (proj2
             (C4_debug_gating 0 2 "Info" None None levels_scenario))))
             false true INFO Hinfo).
  - exists w', added. split; [exact Hlog|]. split; [exact Ht|].
    split; [rewrite Hh; vm_compute; reflexivity|].
    clear - Hlog. vm_compute in Hlog. inversion Hlog.
    split; [vm_compute; reflexivity|]. split; vm_compute; reflexivity.
Defined.

(** A first call that is [info]: the registry appears with its two
    defaults, both handlers run, and the line is on the console and in
    "log.txt"; a first call that is [removeStream("defaultConsole")] leaves
    the file destination alone in the registry. *)
Lemma C8_witness :
  instance (World_start []) = None
  /\ negb (LEVELS_eqb INFO DBG) || debugVisible false (World_start []) = true
  /\ fs_open_append "log.txt" (files (World_start [])) = Some ""%string
  /\ exists p1 p2 w' added,
       inst_streams (getInstance (World_start []))
         = [("defaultConsole"%string, p2); ("defaultTextFile"%string, p1)] /\
       inst_streams (snd (removeStream "defaultConsole" (World_start [])))
         = [("defaultTextFile"%string, p1)] /\
       info 0 false 0 "info_msg" None None (World_start []) = Some w' /\
       inst_streams w'
         = [("defaultConsole"%string, p2); ("defaultTextFile"%string, p1)] /\
       handled added = [(p2, Event_new 0 INFO "info_msg" None None None);
                        (p1, Event_new 0 INFO "info_msg" None None None)] /\
       console w' = "   1970/01/01/00:00:00 - info_msg"%string /\
       fs_open_append "log.txt" (files w')
         = Some "   1970/01/01/00:00:00 - info_msg"%string.
Proof.
  split; [reflexivity|]. split; [reflexivity|]. split; [reflexivity|].
  destruct (C8_lazy_seeding 0 false 0 INFO "info_msg" None None
              "defaultConsole" 0%N (World_start []) eq_refl)
    as [[p1 [p2 [Hs [_ [_ [_ [_ [_ [_ [_ [_ [_ [Hrem [_ Hlog]]]]]]]]]]]]]] _].
  destruct (Hlog eq_refl)
    as [w' [added [Hl [Hreg [_ [_ [Hh [Hc [Hf _]]]]]]]]].
  exists p1, p2, w', added. split; [exact Hs|]. split; [exact Hrem|].
  split; [exact Hl|]. split; [exact Hreg|]. split; [exact Hh|].
  split; [exact Hc|]. exact (Hf ""%string eq_refl).
Defined.
